(** * SublimeDiffView: the diff parser and the per-hunk merge state

    A shallow embedding of [parser/hunk_diff.py] and [parser/file_diff.py].

    - Python [str] is [string]: the text is taken over the code points
      below 256, where the only characters matched by the pattern [\d]
      are ['0'] .. ['9'].
    - Python [int] is [Z] (unbounded).
    - An attribute that is created lazily ([full_old_text],
      [full_new_text]) is an [option]; reading it while it is absent
      raises [AttributeError], which the model returns as [None].
    - The editor objects ([sublime.View], [sublime.Region]) are external:
      the view operations are variables of a section.
    - The display strings built at the end of [HunkDiff.__init__]
      ([oneline_description], [description]) and the back reference
      [file_diff] are only used for display and are not part of the
      record. *)

From Stdlib Require Import ZArith List String Ascii Bool Lia.
Import ListNotations.

Open Scope string_scope.
Open Scope list_scope.
Open Scope Z_scope.

(** [s +++ t] is the concatenation of two strings ([++] is kept for
    lists). *)
Infix "+++" := String.append (right associativity, at level 60)
  : string_scope.

(** ** Python strings *)

Module Py.

Definition LF : ascii := "010"%char.
Definition CR : ascii := "013"%char.

(** [s.startswith(p)] *)
Definition startswith (s p : string) : bool := String.prefix p s.

(** [len(s)] *)
Definition len (s : string) : Z := Z.of_nat (String.length s).

(** The characters of the class [\d] (among the code points of the
    model). *)
Definition is_digit (c : ascii) : bool :=
  let n := N_of_ascii c in (48 <=? n)%N && (n <=? 57)%N.

Definition digit_val (c : ascii) : Z := Z.of_N (N_of_ascii c) - 48.

Fixpoint all_digits (s : string) : bool :=
  match s with
  | EmptyString => true
  | String c s' => is_digit c && all_digits s'
  end.

Fixpoint int_digits (acc : Z) (s : string) : Z :=
  match s with
  | EmptyString => acc
  | String c s' => int_digits (10 * acc + digit_val c) s'
  end.

(** [int(s)] on the strings the hunk header pattern captures: a
    non-empty string of digits.  Python raises [ValueError] on the empty
    string and on a string with any other character in a digit's place;
    signs, blanks and underscores, which [int] would also accept, are
    never captured by [\d+] and are rejected here.  The number of digits
    is not bounded: this is [int] of an interpreter without the limit on
    the length of a decimal string (CPython from 3.11 on, and the patched
    earlier versions, raise [ValueError] above 4300 digits unless the
    limit is lifted), so a header number of more digits than that limit
    is outside the model. *)
Definition int (s : string) : option Z :=
  match s with
  | EmptyString => None
  | _ => if all_digits s then Some (int_digits 0 s) else None
  end.

(** [re.compile('\r?\n').split(s)]: the pieces of [s] between line
    ends, a line end being LF or CR LF. *)
Fixpoint newline_split (s : string) : list string :=
  match s with
  | EmptyString => [EmptyString]
  | String c rest =>
      let keep :=
        match newline_split rest with
        | piece :: pieces => String c piece :: pieces
        | [] => [String c EmptyString]
        end in
      if Ascii.eqb c LF then EmptyString :: newline_split rest
      else if Ascii.eqb c CR then
        match rest with
        | String c' rest' =>
            if Ascii.eqb c' LF then EmptyString :: newline_split rest'
            else keep
        | EmptyString => keep
        end
      else keep
  end.

End Py.

(** ** DiffRegion *)

(** Modelled from the spec: the class [DiffRegion] of
    [parser/diff_region.py], which is not among the sources.  The spec
    gives it as an immutable value with a kind and the four coordinates
    below; the constructor is called as
    [DiffRegion(kind, start_line, start_col, end_line, end_col)]. *)
Record DiffRegion : Type := mkDiffRegion {
  kind : string;
  start_line : Z;
  start_col : Z;
  end_line : Z;
  end_col : Z
}.

(** [sublime.Region(a, b)]: two text points. *)
Record Region : Type := mkRegion { region_a : Z; region_b : Z }.

(** ** HunkDiff *)

Module HunkDiff.

Definition UNMERGED : Z := 0.
Definition MERGED_RIGHT : Z := 1.
Definition MERGED_LEFT : Z := -1.

Record t : Type := mk {
  old_regions : list DiffRegion;
  new_regions : list DiffRegion;
  old_line_focus : Z;
  new_line_focus : Z;
  full_old_region : option Region;
  full_new_region : option Region;
  full_old_text : option string;   (* absent until [get_old_regions] *)
  full_new_text : option string;   (* absent until [get_new_regions] *)
  merge_state : Z;
  old_line_start : Z;
  old_hunk_len : Z;
  new_line_start : Z;
  new_hunk_len : Z;
  context : string;
  hunk_diff_lines : list string;
  add_lines : Z;
  del_lines : Z;
  hunk_type : string
}.

(** *** parse_diff *)

(** The variables of the loop of [parse_diff]: its six locals and the
    six attributes of [self] it updates. *)
Record loop : Type := mkLoop {
  old_cur_line : Z;
  new_cur_line : Z;
  new_add_start : Z;
  old_del_start : Z;
  in_add : bool;
  in_del : bool;
  l_new_regions : list DiffRegion;
  l_old_regions : list DiffRegion;
  l_add_lines : Z;
  l_del_lines : Z;
  l_old_line_focus : Z;
  l_new_line_focus : Z
}.

Definition loop_init (old_start new_start : Z) : loop :=
  {| old_cur_line := old_start;
     new_cur_line := new_start;
     new_add_start := 0;
     old_del_start := 0;
     in_add := false;
     in_del := false;
     l_new_regions := [];
     l_old_regions := [];
     l_add_lines := 0;
     l_del_lines := 0;
     l_old_line_focus := -1;
     l_new_line_focus := -1 |}.

(** One iteration of [for line in self.hunk_diff_lines + [' ']]. *)
Definition loop_body (st : loop) (line : string) : loop :=
  let plus := Py.startswith line "+" in
  let minus := Py.startswith line "-" in
  let blank := Py.startswith line " " in
  (* ADD region ends. *)
  let close_add := in_add st && negb plus in
  let new_regions1 :=
    if close_add
    then l_new_regions st
           ++ [mkDiffRegion "ADD" (new_add_start st) 0 (new_cur_line st) 0]
    else l_new_regions st in
  let in_add1 := if close_add then false else in_add st in
  (* DEL region ends. *)
  let close_del := in_del st && negb minus in
  let old_regions1 :=
    if close_del
    then l_old_regions st
           ++ [mkDiffRegion "DEL" (old_del_start st) 0 (old_cur_line st) 0]
    else l_old_regions st in
  let in_del1 := if close_del then false else in_del st in
  (* Count the line and open a run. *)
  let add_lines1 := if plus then l_add_lines st + 1 else l_add_lines st in
  let new_add_start1 :=
    if plus && negb in_add1 then new_cur_line st else new_add_start st in
  let in_add2 := if plus then true else in_add1 in
  let del_lines1 :=
    if plus then l_del_lines st
    else if minus then l_del_lines st + 1 else l_del_lines st in
  let old_del_start1 :=
    if negb plus && minus && negb in_del1
    then old_cur_line st else old_del_start st in
  let in_del2 := if negb plus && minus then true else in_del1 in
  (* The focus, written once. *)
  let old_focus1 :=
    if negb blank && (l_old_line_focus st =? -1)
    then old_cur_line st else l_old_line_focus st in
  let new_focus1 :=
    if negb blank && (l_new_line_focus st =? -1)
    then new_cur_line st else l_new_line_focus st in
  (* End of that line. *)
  {| old_cur_line := if plus then old_cur_line st else old_cur_line st + 1;
     new_cur_line := if minus then new_cur_line st else new_cur_line st + 1;
     new_add_start := new_add_start1;
     old_del_start := old_del_start1;
     in_add := in_add2;
     in_del := in_del2;
     l_new_regions := new_regions1;
     l_old_regions := old_regions1;
     l_add_lines := add_lines1;
     l_del_lines := del_lines1;
     l_old_line_focus := old_focus1;
     l_new_line_focus := new_focus1 |}.

Definition run_loop (st : loop) (lines : list string) : loop :=
  fold_left loop_body lines st.

(** [parse_diff]: the loop over the body lines and the dummy blank
    line, from the two start lines of the header. *)
Definition parse_diff (old_start new_start : Z) (lines : list string)
  : loop :=
  run_loop (loop_init old_start new_start) (lines ++ [" "]).

(** *** __init__ *)

(** [match[i]]; [IndexError] is [None]. *)
Definition item (parts : list string) (i : nat) : option string :=
  nth_error parts i.

(** The optional length field: 1 when the capture is empty. *)
Definition hunk_len (part : string) : option Z :=
  if 0 <? Py.len part then Py.int part else Some 1.

Definition classify (add_count del_count : Z) : string :=
  if del_count =? 0 then "ADD"
  else if add_count =? 0 then "DEL"
  else "MOD".

(** [HunkDiff(file_diff, match)].  [None] when the constructor raises
    ([IndexError] or [ValueError]). *)
Definition init (parts : list string) : option t :=
  match item parts 0, item parts 1, item parts 2, item parts 3,
        item parts 4 with
  | Some m0, Some m1, Some m2, Some m3, Some m4 =>
      match Py.int m0, hunk_len m1, Py.int m2, hunk_len m3 with
      | Some old_start, Some old_len, Some new_start, Some new_len =>
          let pieces := Py.newline_split m4 in
          let lines := tl pieces in
          let st := parse_diff old_start new_start lines in
          Some {| old_regions := l_old_regions st;
                  new_regions := l_new_regions st;
                  old_line_focus := l_old_line_focus st;
                  new_line_focus := l_new_line_focus st;
                  full_old_region := None;
                  full_new_region := None;
                  full_old_text := None;
                  full_new_text := None;
                  merge_state := UNMERGED;
                  old_line_start := old_start;
                  old_hunk_len := old_len;
                  new_line_start := new_start;
                  new_hunk_len := new_len;
                  context := hd EmptyString pieces;
                  hunk_diff_lines := lines;
                  add_lines := l_add_lines st;
                  del_lines := l_del_lines st;
                  hunk_type := classify (l_add_lines st) (l_del_lines st) |}
      | _, _, _, _ => None
      end
  | _, _, _, _, _ => None
  end.

(** *** The merge state *)

Definition set_merge_state (h : t) (state : Z) : t :=
  {| old_regions := old_regions h;
     new_regions := new_regions h;
     old_line_focus := old_line_focus h;
     new_line_focus := new_line_focus h;
     full_old_region := full_old_region h;
     full_new_region := full_new_region h;
     full_old_text := full_old_text h;
     full_new_text := full_new_text h;
     merge_state := state;
     old_line_start := old_line_start h;
     old_hunk_len := old_hunk_len h;
     new_line_start := new_line_start h;
     new_hunk_len := new_hunk_len h;
     context := context h;
     hunk_diff_lines := hunk_diff_lines h;
     add_lines := add_lines h;
     del_lines := del_lines h;
     hunk_type := hunk_type h |}.

Definition set_full_old (h : t) (r : Region) (text : string) : t :=
  {| old_regions := old_regions h;
     new_regions := new_regions h;
     old_line_focus := old_line_focus h;
     new_line_focus := new_line_focus h;
     full_old_region := Some r;
     full_new_region := full_new_region h;
     full_old_text := Some text;
     full_new_text := full_new_text h;
     merge_state := merge_state h;
     old_line_start := old_line_start h;
     old_hunk_len := old_hunk_len h;
     new_line_start := new_line_start h;
     new_hunk_len := new_hunk_len h;
     context := context h;
     hunk_diff_lines := hunk_diff_lines h;
     add_lines := add_lines h;
     del_lines := del_lines h;
     hunk_type := hunk_type h |}.

Definition set_full_new (h : t) (r : Region) (text : string) : t :=
  {| old_regions := old_regions h;
     new_regions := new_regions h;
     old_line_focus := old_line_focus h;
     new_line_focus := new_line_focus h;
     full_old_region := full_old_region h;
     full_new_region := Some r;
     full_old_text := full_old_text h;
     full_new_text := Some text;
     merge_state := merge_state h;
     old_line_start := old_line_start h;
     old_hunk_len := old_hunk_len h;
     new_line_start := new_line_start h;
     new_hunk_len := new_hunk_len h;
     context := context h;
     hunk_diff_lines := hunk_diff_lines h;
     add_lines := add_lines h;
     del_lines := del_lines h;
     hunk_type := hunk_type h |}.

(** [merge_valid(direction)] *)
Definition merge_valid (h : t) (direction : string) : bool :=
  if merge_state h =? UNMERGED then true
  else if (merge_state h =? MERGED_LEFT) && String.eqb direction "right"
  then true
  else if (merge_state h =? MERGED_RIGHT) && String.eqb direction "left"
  then true
  else false.

(** [merge_changing_view(direction)] *)
Definition merge_changing_view (h : t) (direction : string) : string :=
  if String.eqb direction "right" then
    if merge_state h =? MERGED_LEFT then "left" else "right"
  else
    if merge_state h =? MERGED_RIGHT then "right" else "left".

(** The local [region] of [merge]: the full region of the view that
    changes. *)
Definition merge_region (h : t) (direction : string) : option Region :=
  if String.eqb (merge_changing_view h direction) "right"
  then full_new_region h else full_old_region h.

Section Editor.

(** The editor side: [sublime.View] with the three methods the hunk
    calls, the edit token, and the truth value of a [sublime.Region]
    (the [sublime] module is not part of the repository).  [replace]
    may raise, which is [None]. *)
Variable View : Type.
Variable Edit : Type.
Variable text_point : View -> Z -> Z -> Z.
Variable substr : View -> Region -> string.
Variable replace : View -> Edit -> option Region -> string -> option View.
Variable region_bool : Region -> bool.

(** [not r] for an attribute that holds [None] or a region. *)
Definition region_unset (r : option Region) : bool :=
  match r with
  | None => true
  | Some r => negb (region_bool r)
  end.

Definition view_region (view : View) (r : DiffRegion) : Region :=
  mkRegion (text_point view (start_line r - 1) (start_col r))
           (text_point view (end_line r - 1) (end_col r)).

(** [get_old_regions(view)]: captures the full old region and its text
    on the first call; returns the regions of [old_regions]. *)
Definition get_old_regions (h : t) (view : View) : t * list Region :=
  let h' :=
    if region_unset (full_old_region h) then
      let r := mkRegion
                 (text_point view (old_line_start h - 1) 0)
                 (text_point view
                    (old_line_start h + old_hunk_len h - 1) 0) in
      set_full_old h r (substr view r)
    else h in
  (h', map (view_region view) (old_regions h')).

(** [get_new_regions(view)] *)
Definition get_new_regions (h : t) (view : View) : t * list Region :=
  let h' :=
    if region_unset (full_new_region h) then
      let r := mkRegion
                 (text_point view (new_line_start h - 1) 0)
                 (text_point view
                    (new_line_start h + new_hunk_len h - 1) 0) in
      set_full_new h r (substr view r)
    else h in
  (h', map (view_region view) (new_regions h')).

(** [merge(view, edit, direction)].  [None] when reading the text
    attribute raises [AttributeError] or [view.replace] raises; the
    state is then left as it was. *)
Definition merge (h : t) (view : View) (edit : Edit) (direction : string)
  : option (View * t) :=
  match (if String.eqb direction "right"
         then full_old_text h else full_new_text h) with
  | None => None
  | Some text =>
      let region := merge_region h direction in
      match replace view edit region text with
      | None => None
      | Some view' =>
          Some (view',
                if String.eqb direction "right"
                then set_merge_state h (merge_state h + 1)
                else set_merge_state h (merge_state h - 1))
      end
  end.

End Editor.

Arguments region_unset region_bool r : assert.
Arguments view_region {View} text_point view r.
Arguments get_old_regions {View} text_point substr region_bool h view.
Arguments get_new_regions {View} text_point substr region_bool h view.
Arguments merge {View Edit} replace h view edit direction.

End HunkDiff.

(** ** FileDiff *)

Module FileDiff.

(** *** The hunk header pattern *)

(** [HUNK_MATCH]: an optional CR, LF, ["@@ -"], one or more digits
    (capture 1), an optional comma, any number of digits (capture 2),
    [" +"], one or more digits (capture 3), an optional comma, any
    number of digits (capture 4), [" @@"].
    Each of its items is followed by a character it cannot match itself
    (digits by [,] or a blank, the optional [,] by a digit or a blank,
    the optional CR by LF), so the greedy choice is the only one that
    can succeed and the matcher needs no backtracking:
    [match_header_sound] and [match_header_complete] below show that it
    finds a match exactly where the pattern has one. *)

Fixpoint strip_prefix (p s : string) : option string :=
  match p with
  | EmptyString => Some s
  | String a p' =>
      match s with
      | String b s' => if Ascii.eqb a b then strip_prefix p' s' else None
      | EmptyString => None
      end
  end.

(** [c?] *)
Definition opt_char (c : ascii) (s : string) : string :=
  match s with
  | String c' s' => if Ascii.eqb c' c then s' else s
  | EmptyString => s
  end.

(** A run of digits, as long as it can be, and what follows it. *)
Fixpoint span_digits (s : string) : string * string :=
  match s with
  | String c s' =>
      if Py.is_digit c
      then let (d, r) := span_digits s' in (String c d, r)
      else (EmptyString, s)
  | EmptyString => (EmptyString, EmptyString)
  end.

(** One side of the header after its sign: digits (at least one), an
    optional comma, digits.  The two captures and the rest. *)
Definition range (s : string) : option (string * string * string) :=
  let (start, s1) := span_digits s in
  match start with
  | EmptyString => None
  | _ => let (count, s2) := span_digits (opt_char "," s1) in
         Some (start, count, s2)
  end.

(** [HUNK_MATCH.match] at the start of [s]: the four captures and the
    text after the match. *)
Definition match_header (s : string)
  : option (string * string * string * string * string) :=
  match strip_prefix (String Py.LF "@@ -") (opt_char Py.CR s) with
  | None => None
  | Some s1 =>
      match range s1 with
      | None => None
      | Some (g1, g2, s2) =>
          match strip_prefix " +" s2 with
          | None => None
          | Some s3 =>
              match range s3 with
              | None => None
              | Some (g3, g4, s4) =>
                  match strip_prefix " @@" s4 with
                  | None => None
                  | Some rest => Some (g1, g2, g3, g4, rest)
                  end
              end
          end
      end
  end.

(** [HUNK_MATCH.split(text)]: the text before the first header, then for
    each header its four captures and the text up to the next header.
    [cur] is the piece being collected; [skip] counts the characters of
    [s] that belong to the header matched last. *)
Fixpoint split_from (skip : nat) (cur : string) (s : string)
  : list string :=
  match s with
  | EmptyString => [cur]
  | String c s' =>
      match skip with
      | S k => split_from k cur s'
      | O =>
          match match_header s with
          | Some (g1, g2, g3, g4, rest) =>
              cur :: g1 :: g2 :: g3 :: g4
                :: split_from (String.length s' - String.length rest)
                     EmptyString s'
          | None => split_from O (cur +++ String c EmptyString) s'
          end
      end
  end.

Definition hunk_split (text : string) : list string :=
  split_from O EmptyString text.

(** *** The object *)

(** Modelled from the spec: the class [DummyHunkDiff], which is not
    among the sources; only its constructor call
    [DummyHunkDiff(self, len(self.hunks))] is.  The spec has it as a
    dummy hunk put in front of the list for the file header, without
    regions.  An element of [hunks] is a [HunkDiff] or such a dummy,
    which keeps the number it was built with. *)
Inductive entry : Type :=
| Hunk (h : HunkDiff.t)
| DummyHunk (n : Z).

(** [parses] is ghost state: the number of times [parse_diff] has run
    on the object.  It is not an attribute of the Python object. *)
Record t : Type := mk {
  filename : string;
  abs_filename : string;
  old_file : string;
  new_file : string;
  diff_text : string;
  hunks : list entry;
  parses : nat
}.

(** [FileDiff(filename, abs_filename, diff_text)] *)
Definition init (filename abs_filename diff_text : string) : t :=
  {| filename := filename;
     abs_filename := abs_filename;
     old_file := "UNDEFINED";
     new_file := "UNDEFINED";
     diff_text := diff_text;
     hunks := [];
     parses := O |}.

Definition set_hunks (fd : t) (hs : list entry) (n : nat) : t :=
  {| filename := filename fd;
     abs_filename := abs_filename fd;
     old_file := old_file fd;
     new_file := new_file fd;
     diff_text := diff_text fd;
     hunks := hs;
     parses := n |}.

(** The loop [while len(hunks) >= match_len] of [parse_diff]: [acc] is
    [self.hunks], [pieces] the local [hunks]. *)
Fixpoint build_hunks (acc : list entry) (pieces : list string)
  : option (list entry) :=
  match pieces with
  | p0 :: p1 :: p2 :: p3 :: p4 :: rest =>
      match HunkDiff.init [p0; p1; p2; p3; p4] with
      | Some h => build_hunks (acc ++ [Hunk h]) rest
      | None => None
      end
  | _ => Some acc
  end.

(** [parse_diff(include_headers)].  [None] when it raises. *)
Definition parse_diff (fd : t) (include_headers : bool) : option t :=
  match hunk_split (diff_text fd) with
  | [] => None                                   (* pop from empty list *)
  | _ :: pieces =>
      match build_hunks (hunks fd) pieces with
      | None => None
      | Some hs =>
          let hs' :=
            if include_headers
            then DummyHunk (Z.of_nat (List.length hs)) :: hs
            else hs in
          Some (set_hunks fd hs' (S (parses fd)))
      end
  end.

(** [get_hunks(include_headers)].  The call returns the list object
    bound to [self.hunks]; that object is created by [__init__], only
    ever changed in place, and so is the same object at every call.
    The second component is what the returned list holds at the moment
    the call returns. *)
Definition get_hunks (fd : t) (include_headers : bool)
  : option (t * list entry) :=
  match hunks fd with
  | [] =>
      match parse_diff fd include_headers with
      | None => None
      | Some fd' => Some (fd', hunks fd')
      end
  | _ :: _ => Some (fd, hunks fd)
  end.

(** A sequence of calls of [get_hunks], one for each argument; the
    result of each call in turn. *)
Fixpoint get_hunks_calls (fd : t) (args : list bool)
  : option (t * list (list entry)) :=
  match args with
  | [] => Some (fd, [])
  | a :: args' =>
      match get_hunks fd a with
      | None => None
      | Some (fd1, r) =>
          match get_hunks_calls fd1 args' with
          | None => None
          | Some (fd2, rs) => Some (fd2, r :: rs)
          end
      end
  end.

End FileDiff.

(** ** The properties, in the words of the specification *)

Module Spec.

(** The number of body lines with the prefix [p]. *)
Fixpoint count_lines (p : string) (lines : list string) : Z :=
  match lines with
  | [] => 0
  | l :: tl =>
      (if Py.startswith l p then 1 else 0) + count_lines p tl
  end.

(** The length of the run of [p]-prefixed lines at the head of
    [lines], as long as it can be. *)
Fixpoint run_len (p : string) (lines : list string) : Z :=
  match lines with
  | [] => 0
  | l :: tl => if Py.startswith l p then 1 + run_len p tl else 0
  end.

(** The maximal runs of [p]-prefixed lines, one region for each, in
    the order of the body.  A maximal run starts at a [p]-prefixed line
    whose predecessor (if any) is not [p]-prefixed, and has the length
    [run_len] gives there.  [cur] is the line number of the head of
    [lines] on the side of the run: every line counts on that side but
    those with the prefix [other] of the opposite side.  The region of a
    run goes from the number of its first line to the number after its
    last line. *)
Fixpoint runs (tag p other : string) (prev : bool) (cur : Z)
    (lines : list string) : list DiffRegion :=
  match lines with
  | [] => []
  | l :: tl =>
      (if Py.startswith l p && negb prev
       then [mkDiffRegion tag cur 0 (cur + run_len p lines) 0]
       else [])
      ++ runs tag p other (Py.startswith l p)
           (if Py.startswith l other then cur else cur + 1) tl
  end.

(** The number of lines that count on a side: all but those with the
    prefix [other] of the opposite side. *)
Fixpoint side_lines (other : string) (lines : list string) : Z :=
  match lines with
  | [] => 0
  | l :: tl =>
      (if Py.startswith l other then 0 else 1) + side_lines other tl
  end.

(** [run] is a maximal run of [p]-prefixed lines of the body
    [pre ++ run ++ post]: it is not empty, all its lines have the prefix,
    and neither the line before it nor the line after it has. *)
Definition maximal_run (p : string) (pre run post : list string) : Prop :=
  run <> []
  /\ Forall (fun l => Py.startswith l p = true) run
  /\ (forall l, hd_error (rev pre) = Some l -> Py.startswith l p = false)
  /\ (forall l, hd_error post = Some l -> Py.startswith l p = false).

Definition add_runs (new_start : Z) (lines : list string)
  : list DiffRegion :=
  runs "ADD" "+" "-" false new_start lines.

Definition del_runs (old_start : Z) (lines : list string)
  : list DiffRegion :=
  runs "DEL" "-" "+" false old_start lines.

(** The lines a region spans.  [get_old_regions] and [get_new_regions]
    turn a region into the text from the start of line [start_line] to
    the start of line [end_line] (lines counted from 1): the lines
    [start_line], ..., [end_line - 1]. *)
Definition region_lines (r : DiffRegion) : list Z :=
  map (fun i => start_line r + Z.of_nat i)
      (seq 0 (Z.to_nat (end_line r - start_line r))).

(** The line number, on one side, of the first [p]-prefixed line, or -1
    when there is none.  [cur] and [other] are as in [runs]. *)
Fixpoint first_line_no (p other : string) (cur : Z) (lines : list string)
  : Z :=
  match lines with
  | [] => -1
  | l :: tl =>
      if Py.startswith l p then cur
      else first_line_no p other
             (if Py.startswith l other then cur else cur + 1) tl
  end.

(** The two line numbers of the first line that does not start with a
    blank, or -1 and -1 when every line does. *)
Fixpoint first_change (old_cur new_cur : Z) (lines : list string)
  : Z * Z :=
  match lines with
  | [] => (-1, -1)
  | l :: tl =>
      if Py.startswith l " "
      then first_change (old_cur + 1) (new_cur + 1) tl
      else (old_cur, new_cur)
  end.

(** [s] does not start with a digit. *)
Definition no_digit_head (s : string) : Prop :=
  match s with
  | String c _ => Py.is_digit c = false
  | EmptyString => True
  end.

(** The strings of the header pattern, with what the four groups of the
    pattern stand for: an optional CR, LF, [@@ -], digits [g1], an
    optional comma, digits [g2], [ +], digits [g3], an optional comma,
    digits [g4], [ @@]; [g1] and [g3] are not empty. *)
Definition optional (c : ascii) (s : string) : Prop :=
  s = EmptyString \/ s = String c EmptyString.

Definition header_text (hd g1 g2 g3 g4 : string) : Prop :=
  exists cr c1 c2,
    optional Py.CR cr /\ optional "," c1 /\ optional "," c2
    /\ g1 <> EmptyString /\ g3 <> EmptyString
    /\ Py.all_digits g1 = true /\ Py.all_digits g2 = true
    /\ Py.all_digits g3 = true /\ Py.all_digits g4 = true
    /\ hd = cr +++ String Py.LF "@@ -" +++ g1 +++ c1 +++ g2
            +++ " +" +++ g3 +++ c2 +++ g4 +++ " @@".

(** [s] starts with a header. *)
Definition header_at (s : string) : Prop :=
  exists hd g1 g2 g3 g4 rest,
    header_text hd g1 g2 g3 g4 /\ s = hd +++ rest.

(** No position of [text] starts a header. *)
Definition no_header (text : string) : Prop :=
  forall pre suf, text = pre +++ suf -> ~ header_at suf.

(** The text [@@ -a,b +c,d @@] of a header, without a line end. *)
Definition header_line (a b c d : string) : string :=
  "@@ -" +++ a +++ "," +++ b +++ " +" +++ c +++ "," +++ d +++ " @@".

(** [s] has no CR and no LF. *)
Fixpoint line_end_free (s : string) : bool :=
  match s with
  | EmptyString => true
  | String c s' =>
      negb (Ascii.eqb c Py.LF) && negb (Ascii.eqb c Py.CR)
      && line_end_free s'
  end.

(** The shape of the split of a diff text: a first piece, then for each
    header four groups of digits (the first and the third not empty)
    and one more piece. *)
Inductive pieces_ok : list string -> Prop :=
| pieces_last (piece : string) : pieces_ok [piece]
| pieces_hunk (piece g1 g2 g3 g4 : string) (rest : list string) :
    g1 <> EmptyString -> g3 <> EmptyString ->
    Py.all_digits g1 = true -> Py.all_digits g2 = true ->
    Py.all_digits g3 = true -> Py.all_digits g4 = true ->
    pieces_ok rest ->
    pieces_ok (piece :: g1 :: g2 :: g3 :: g4 :: rest).

(** Whether some position of [text] starts a hunk header (with its
    line end in front), as the matcher finds it. *)
Fixpoint has_header (text : string) : bool :=
  match FileDiff.match_header text with
  | Some _ => true
  | None =>
      match text with
      | EmptyString => false
      | String _ text' => has_header text'
      end
  end.

(** The hunk has been shown in both views: [get_old_regions] and
    [get_new_regions] have stored the two full regions and their
    texts. *)
Definition captured (h : HunkDiff.t) : Prop :=
  HunkDiff.full_old_region h <> None
  /\ HunkDiff.full_new_region h <> None
  /\ HunkDiff.full_old_text h <> None
  /\ HunkDiff.full_new_text h <> None.

(** [view.replace] returns when it is given a region. *)
Definition replace_returns {View Edit : Type}
    (replace : View -> Edit -> option Region -> string -> option View)
  : Prop :=
  forall v e r s, replace v e (Some r) s <> None.

Definition in_enum (state : Z) : Prop :=
  state = HunkDiff.UNMERGED \/ state = HunkDiff.MERGED_LEFT
  \/ state = HunkDiff.MERGED_RIGHT.

End Spec.

(** ** A small editor, to run the hunk operations on *)

Module Demo.

(** A view is the list of the lines of a buffer; a text point is a
    line index (the hunk only ever asks for column 0). *)
Definition View : Type := list string.
Definition Edit : Type := unit.

Definition text_point (_ : View) (row col : Z) : Z := row.

Definition join (lines : list string) : string :=
  fold_right (fun l acc => l +++ String Py.LF acc) EmptyString lines.

Definition between (view : View) (a b : Z) : list string :=
  firstn (Z.to_nat (b - a)) (skipn (Z.to_nat a) view).

Definition substr (view : View) (r : Region) : string :=
  join (between view (region_a r) (region_b r)).

(** The lines of a text in which every line ends with LF. *)
Definition lines_of (text : string) : list string :=
  removelast (Py.newline_split text).

Definition replace (view : View) (_ : Edit) (r : option Region)
    (text : string) : option View :=
  match r with
  | None => None
  | Some r =>
      Some (firstn (Z.to_nat (region_a r)) view
            ++ lines_of text
            ++ skipn (Z.to_nat (region_b r)) view)
  end.

Definition region_bool (r : Region) : bool :=
  negb (region_a r =? region_b r).

(** ['\n'.join(lines)], to write the texts of the examples. *)
Fixpoint text (lines : list string) : string :=
  match lines with
  | [] => EmptyString
  | l :: tl =>
      match tl with
      | [] => l
      | _ :: _ => l +++ String Py.LF (text tl)
      end
  end.

Definition old_view : View := ["a"; "b"].
Definition new_view : View := ["a"; "B"; "c"].

(** The hunk [@@ -2 +2,2 @@] that replaces line 2 by two lines, once
    both views have asked for its regions. *)
Definition parts : list string :=
  ["2"; ""; "2"; "2"; text [""; "-b"; "+B"; "+c"]].

Definition shown (h : HunkDiff.t) : HunkDiff.t :=
  let h1 :=
    fst (HunkDiff.get_old_regions text_point substr region_bool h
           old_view) in
  fst (HunkDiff.get_new_regions text_point substr region_bool h1 new_view).

(** A hunk whose body has no added and no deleted line. *)
Definition unchanged_parts : list string :=
  ["1"; "1"; "1"; "1"; text ["ctx"; " same"]].

(** A hunk that deletes a line and, after a line of context, adds
    one. *)
Definition apart_parts : list string :=
  ["10"; "2"; "10"; "2"; text ["ctx"; "-a"; " b"; "+c"]].

(** The hunk [@@ -5 +5,2 @@] with the text [ctx], a line end and
    [+added] after the header. *)
Definition short_parts : list string :=
  ["5"; ""; "5"; "2"; text ["ctx"; "+added"]].

Definition short_text : string :=
  text ["--- a/f"; "@@ -5 +5,2 @@" +++ text ["ctx"; "+added"]].

(** A diff text without any hunk. *)
Definition no_hunk_text : string := text ["--- a/f"; "+++ b/f"].

(** A diff text that starts with a hunk header. *)
Definition headed_text : string :=
  text ["@@ -1,2 +1,3 @@ ctx"; " a"; "+new"; " b"].

Definition blank : HunkDiff.t :=
  HunkDiff.mk [] [] (-1) (-1) None None None None 0 0 0 0 0
    EmptyString [] 0 0 EmptyString.

Definition hunk : HunkDiff.t :=
  shown (match HunkDiff.init parts with Some h => h | None => blank end).

(** The same hunk after a merge to the right. *)
Definition merged_right : HunkDiff.t :=
  match HunkDiff.merge replace hunk new_view tt "right" with
  | Some (_, h) => h
  | None => blank
  end.

End Demo.

(** ** Further notions for the properties of the code *)

Module Props.

(** The other direction of a merge. *)
Definition opposite (direction : string) : string :=
  if String.eqb direction "right" then "left" else "right".

(** A hunk as [__init__] leaves it: nothing captured yet. *)
Definition fresh (h : HunkDiff.t) : Prop :=
  HunkDiff.full_old_region h = None
  /\ HunkDiff.full_new_region h = None
  /\ HunkDiff.full_old_text h = None
  /\ HunkDiff.full_new_text h = None.

(** The regions follow one another between two line numbers: each one
    starts at or after the end of the one before (and not before [lo]),
    is not empty, and the last one ends at or before [hi]. *)
Fixpoint ordered_from (lo : Z) (rs : list DiffRegion) (hi : Z) : Prop :=
  match rs with
  | [] => lo <= hi
  | r :: rs' =>
      lo <= start_line r /\ start_line r < end_line r
      /\ ordered_from (end_line r) rs' hi
  end.

(** The number of lines the regions span together. *)
Fixpoint span_total (rs : list DiffRegion) : Z :=
  match rs with
  | [] => 0
  | r :: rs' => (end_line r - start_line r) + span_total rs'
  end.

(** The full region of a side of a hunk in a view: from the start of
    the first line of the hunk to the start of the line after its
    last. *)
Definition full_region {View : Type} (text_point : View -> Z -> Z -> Z)
    (view : View) (start len : Z) : Region :=
  mkRegion (text_point view (start - 1) 0)
           (text_point view (start + len - 1) 0).

(** The first body line that does not start with a blank. *)
Fixpoint first_nonblank (lines : list string) : option string :=
  match lines with
  | [] => None
  | l :: tl => if Py.startswith l " " then first_nonblank tl else Some l
  end.

(** The hunk of [Demo.parts] as the constructor returns it. *)
Definition demo_parsed : HunkDiff.t :=
  match HunkDiff.init Demo.parts with
  | Some h => h
  | None => Demo.blank
  end.

(** The hunk of [Demo.short_parts] as the constructor returns it. *)
Definition demo_short : HunkDiff.t :=
  match HunkDiff.init Demo.short_parts with
  | Some h => h
  | None => Demo.blank
  end.

(** [s] ends with CR. *)
Fixpoint ends_cr (s : string) : bool :=
  match s with
  | EmptyString => false
  | String c s' =>
      match s' with
      | EmptyString => Ascii.eqb c Py.CR
      | String _ _ => ends_cr s'
      end
  end.

(** A hunk of a diff text: the four numbers of its header (as they are
    written) and the text from the header to the next one. *)
Record chunk : Type := mkChunk {
  c_old_start : string;
  c_old_len : string;
  c_new_start : string;
  c_new_len : string;
  c_body : string
}.

(** The numbers are digits (a length may be left empty), and the text
    holds no header and does not end with CR, which would be taken for
    the line end of the next header. *)
Definition chunk_ok (ch : chunk) : Prop :=
  c_old_start ch <> EmptyString /\ c_new_start ch <> EmptyString
  /\ Py.all_digits (c_old_start ch) = true
  /\ Py.all_digits (c_old_len ch) = true
  /\ Py.all_digits (c_new_start ch) = true
  /\ Py.all_digits (c_new_len ch) = true
  /\ Spec.no_header (c_body ch)
  /\ ends_cr (c_body ch) = false.

(** The diff text: what comes before the first header, then each hunk
    as a line end, its header [@@ -a,b +c,d @@] and its text. *)
Fixpoint diff_of (pre : string) (chunks : list chunk) : string :=
  match chunks with
  | [] => pre
  | ch :: chs =>
      pre +++ String Py.LF
        (Spec.header_line (c_old_start ch) (c_old_len ch)
           (c_new_start ch) (c_new_len ch)
         +++ diff_of (c_body ch) chs)
  end.

(** The five pieces of each hunk, one hunk after the other. *)
Fixpoint flat (chunks : list chunk) : list string :=
  match chunks with
  | [] => []
  | ch :: chs =>
      c_old_start ch :: c_old_len ch :: c_new_start ch :: c_new_len ch
        :: c_body ch :: flat chs
  end.

(** The hunk built from the pieces of one hunk of the text. *)
Definition chunk_hunk (ch : chunk) : option HunkDiff.t :=
  HunkDiff.init
    [c_old_start ch; c_old_len ch; c_new_start ch; c_new_len ch; c_body ch].

(** A diff text with two hunks. *)
Definition demo_chunks : list chunk :=
  [mkChunk "1" "2" "1" "3" (Demo.text [" ctx"; " a"; "+new"; " b"]);
   mkChunk "9" "1" "10" "0" (Demo.text [""; "-gone"])].

(** The text [@@ -a +c @@] of a header that leaves out both lengths. *)
Definition short_header_line (a c : string) : string :=
  "@@ -" +++ a +++ " +" +++ c +++ " @@".

(** A sequence of calls of [merge] on a hunk, one for each direction,
    each on the view the call before has left. *)
Fixpoint merge_all {View Edit : Type}
    (replace : View -> Edit -> option Region -> string -> option View)
    (h : HunkDiff.t) (view : View) (edit : Edit) (ds : list string)
  : option (View * HunkDiff.t) :=
  match ds with
  | [] => Some (view, h)
  | d :: ds' =>
      match HunkDiff.merge replace h view edit d with
      | None => None
      | Some (view', h') => merge_all replace h' view' edit ds'
      end
  end.

(** The number of ['right'] among the directions. *)
Fixpoint rights (ds : list string) : Z :=
  match ds with
  | [] => 0
  | d :: ds' => (if String.eqb d "right" then 1 else 0) + rights ds'
  end.

(** The full region and the captured text of a side of a hunk: the new
    file is the right side, the old file the left side. *)
Definition side_region (h : HunkDiff.t) (side : string) : option Region :=
  if String.eqb side "right"
  then HunkDiff.full_new_region h else HunkDiff.full_old_region h.

Definition side_text (h : HunkDiff.t) (side : string) : option string :=
  if String.eqb side "right"
  then HunkDiff.full_new_text h else HunkDiff.full_old_text h.

(** What a call of [merge] comes to when it writes [text] over
    [region]. *)
Definition write {View Edit : Type}
    (replace : View -> Edit -> option Region -> string -> option View)
    (h : HunkDiff.t) (view : View) (edit : Edit)
    (region : option Region) (text : option string) (state : Z)
  : option (View * HunkDiff.t) :=
  match text with
  | None => None
  | Some t =>
      match replace view edit region t with
      | None => None
      | Some view' => Some (view', HunkDiff.set_merge_state h state)
      end
  end.

(** The hunk [@@ -5 +5,2 @@] with the header on a line of its own and
    the two body lines [ctx] and [+added] after it: the five pieces of
    its match, and a diff text that holds it. *)
Definition own_line_parts : list string :=
  ["5"; ""; "5"; "2"; Demo.text [""; "ctx"; "+added"]].

Definition own_line_text : string :=
  Demo.text ["--- a/f"; "@@ -5 +5,2 @@"; "ctx"; "+added"].

(** An element of [hunks] that is a real hunk. *)
Definition is_hunk (e : FileDiff.entry) : Prop :=
  match e with
  | FileDiff.Hunk _ => True
  | FileDiff.DummyHunk _ => False
  end.

(** A region of whole lines with the given kind. *)
Definition whole_lines (tag : string) (r : DiffRegion) : Prop :=
  kind r = tag /\ start_col r = 0 /\ end_col r = 0.

End Props.

(** * Theorems *)

(** ** The merge state *)

Section MergeState.

Import HunkDiff.

Variable View : Type.
Variable Edit : Type.
Variable replace : View -> Edit -> option Region -> string -> option View.

Lemma merge_state_set (h : t) (z : Z) :
  merge_state (set_merge_state h z) = z.
Proof. reflexivity. Qed.

Lemma captured_set_merge_state (h : t) (z : Z) :
  Spec.captured h -> Spec.captured (set_merge_state h z).
Proof. intros C. exact C. Qed.

Lemma merge_region_captured (h : t) (d : string) :
  Spec.captured h -> exists r, merge_region h d = Some r.
Proof.
  intros (Ho & Hn & _ & _). unfold merge_region.
  destruct (String.eqb (merge_changing_view h d) "right").
  - destruct (full_new_region h) as [r |]; [now exists r | contradiction].
  - destruct (full_old_region h) as [r |]; [now exists r | contradiction].
Qed.

(** [merge] returns, with the state moved by one, once the hunk has
    been shown in both views. *)
Lemma merge_returns (h : t) (view : View) (edit : Edit) (d : string) :
  Spec.captured h ->
  Spec.replace_returns replace ->
  exists v',
    merge replace h view edit d
    = Some (v', set_merge_state h
                  (merge_state h
                   + (if String.eqb d "right" then 1 else -1))).
Proof.
  intros C R. unfold merge.
  destruct (merge_region_captured h d C) as [r ->].
  destruct C as (_ & _ & Hto & Htn).
  assert (T : exists text,
             (if String.eqb d "right" then full_old_text h
              else full_new_text h) = Some text).
  { destruct (String.eqb d "right").
    - destruct (full_old_text h) as [x |]; [now exists x | contradiction].
    - destruct (full_new_text h) as [x |]; [now exists x | contradiction]. }
  destruct T as [text ->].
  specialize (R view edit r text).
  destruct (replace view edit (Some r) text) as [v' |]; [| contradiction].
  exists v'. destruct (String.eqb d "right"); reflexivity.
Qed.

Lemma merge_moves_by_one (h : t) (view : View) (edit : Edit) (d : string)
    (v1 : View) (h1 : t) :
  merge replace h view edit d = Some (v1, h1) ->
  h1 = set_merge_state h
         (merge_state h + (if String.eqb d "right" then 1 else -1)).
Proof.
  unfold merge.
  destruct (if String.eqb d "right" then full_old_text h
            else full_new_text h) as [text |]; [| discriminate].
  destruct (replace view edit (merge_region h d) text) as [v' |];
    [| discriminate].
  intros E. injection E as _ <-.
  destruct (String.eqb d "right"); reflexivity.
Qed.

(** C1.  [merge_valid(direction)] is true exactly when the hunk is
    unmerged, or the direction is ['right'] and the hunk is merged
    left, or the direction is ['left'] and the hunk is merged right;
    it is false in every other case.  This holds for every hunk and
    every direction. *)
Theorem merge_valid_iff (h : t) (direction : string) :
  merge_valid h direction = true <->
  (merge_state h = UNMERGED
   \/ (direction = "right" /\ merge_state h = MERGED_LEFT)
   \/ (direction = "left" /\ merge_state h = MERGED_RIGHT)).
Proof.
  unfold merge_valid, UNMERGED, MERGED_LEFT, MERGED_RIGHT.
  destruct (Z.eqb_spec (merge_state h) 0) as [E0 | N0].
  - split; [now left | reflexivity].
  - destruct (Z.eqb_spec (merge_state h) (-1)) as [El | Nl];
      destruct (String.eqb_spec direction "right") as [Er | Nr]; cbn.
    + split; [intros _; right; left; now split | reflexivity].
    + destruct (Z.eqb_spec (merge_state h) 1) as [E1 | N1]; [lia |].
      cbn. split; [discriminate |].
      intros [H | [[H _] | [_ H]]]; contradiction.
    + destruct (Z.eqb_spec (merge_state h) 1) as [E1 | N1]; cbn.
      * subst direction. cbn. split; [discriminate |].
        intros [H | [[_ H] | [H _]]]; [contradiction | lia | discriminate].
      * split; [discriminate |].
        intros [H | [[_ H] | [_ H]]]; contradiction.
    + destruct (Z.eqb_spec (merge_state h) 1) as [E1 | N1];
        destruct (String.eqb_spec direction "left") as [Ef | Nf]; cbn.
      * split; [intros _; right; right; now split | reflexivity].
      * split; [discriminate |].
        intros [H | [[H _] | [H _]]]; contradiction.
      * split; [discriminate |].
        intros [H | [[H _] | [_ H]]]; contradiction.
      * split; [discriminate |].
        intros [H | [[H _] | [H _]]]; contradiction.
Qed.

(** C6.  [merge_changing_view('right')] is ['left'] when the hunk is
    merged left and ['right'] otherwise; [merge_changing_view('left')]
    is ['right'] when the hunk is merged right and ['left']
    otherwise. *)
Theorem merge_changing_view_cases (h : t) :
  (merge_changing_view h "right" = "left"
     <-> merge_state h = MERGED_LEFT)
  /\ (merge_changing_view h "right" = "right"
     <-> merge_state h <> MERGED_LEFT)
  /\ (merge_changing_view h "left" = "right"
     <-> merge_state h = MERGED_RIGHT)
  /\ (merge_changing_view h "left" = "left"
     <-> merge_state h <> MERGED_RIGHT).
Proof.
  unfold merge_changing_view, MERGED_LEFT, MERGED_RIGHT. cbn.
  destruct (Z.eqb_spec (merge_state h) (-1)) as [El | Nl];
    destruct (Z.eqb_spec (merge_state h) 1) as [Er | Nr];
    try lia; repeat split; intros; try assumption; try reflexivity;
    try discriminate; try contradiction; try lia.
Qed.

(** C2.  Once the hunk has been shown in both views (so that its full
    regions and texts are captured) and with a [view.replace] that
    returns, [merge('right')] adds 1 to [merge_state] and
    [merge('left')] subtracts 1; and whenever [merge] returns at all
    the state has moved so.  Hence, from UNMERGED, both directions are
    valid; after [merge('right')] the state is MERGED_RIGHT, where
    ['right'] is no longer valid and ['left'] is; and a [merge('left')]
    from there brings the state back to UNMERGED. *)
Theorem merge_state_machine (h : t) (view : View) (edit : Edit) :
  Spec.captured h ->
  Spec.replace_returns replace ->
  (exists v1 h1, merge replace h view edit "right" = Some (v1, h1)
                 /\ merge_state h1 = merge_state h + 1)
  /\ (exists v1 h1, merge replace h view edit "left" = Some (v1, h1)
                    /\ merge_state h1 = merge_state h - 1)
  /\ (forall v1 h1, merge replace h view edit "right" = Some (v1, h1) ->
                    merge_state h1 = merge_state h + 1)
  /\ (forall v1 h1, merge replace h view edit "left" = Some (v1, h1) ->
                    merge_state h1 = merge_state h - 1)
  /\ (merge_state h = UNMERGED ->
      merge_valid h "right" = true /\ merge_valid h "left" = true
      /\ exists v1 h1,
          merge replace h view edit "right" = Some (v1, h1)
          /\ merge_state h1 = MERGED_RIGHT
          /\ merge_valid h1 "right" = false
          /\ merge_valid h1 "left" = true
          /\ exists v2 h2,
              merge replace h1 v1 edit "left" = Some (v2, h2)
              /\ merge_state h2 = UNMERGED).
Proof.
  intros C R.
  split; [| split; [| split; [| split]]].
  - destruct (merge_returns h view edit "right" C R) as [v1 E].
    eexists _, _. split; [exact E | reflexivity].
  - destruct (merge_returns h view edit "left" C R) as [v1 E].
    eexists _, _. split; [exact E | cbn; lia].
  - intros v1 h1 E. apply merge_moves_by_one in E. subst h1. reflexivity.
  - intros v1 h1 E. apply merge_moves_by_one in E. subst h1. cbn. lia.
  - intros U.
    split; [unfold merge_valid; rewrite U; reflexivity |].
    split; [unfold merge_valid; rewrite U; reflexivity |].
    destruct (merge_returns h view edit "right" C R) as [v1 E1].
    cbn in E1. rewrite U in E1.
    set (h1 := set_merge_state h (UNMERGED + 1)) in *.
    exists v1, h1.
    split; [exact E1 |].
    split; [reflexivity | split; [reflexivity | split; [reflexivity |]]].
    assert (C1 : Spec.captured h1) by exact C.
    destruct (merge_returns h1 v1 edit "left" C1 R) as [v2 E2].
    eexists _, _. split; [exact E2 | reflexivity].
Qed.

(** C7.  [merge] does not look at [merge_valid]: on a hunk that is
    MERGED_RIGHT, where a merge to the right is not valid, a further
    [merge('right')] returns all the same and leaves [merge_state] at 2,
    which is none of UNMERGED, MERGED_LEFT, MERGED_RIGHT.  So the
    membership of [merge_state] in the three states is not kept by
    [merge]. *)
Theorem merge_leaves_enum (h : t) (view : View) (edit : Edit) :
  merge_state h = MERGED_RIGHT ->
  Spec.captured h ->
  Spec.replace_returns replace ->
  Spec.in_enum (merge_state h)
  /\ merge_valid h "right" = false
  /\ exists v' h',
      merge replace h view edit "right" = Some (v', h')
      /\ merge_state h' = 2
      /\ ~ Spec.in_enum (merge_state h').
Proof.
  intros St C R.
  split; [right; right; exact St |].
  split; [unfold merge_valid; rewrite St; reflexivity |].
  destruct (merge_returns h view edit "right" C R) as [v' E].
  eexists _, _. split; [exact E |].
  rewrite St. cbn.
  split; [reflexivity |].
  unfold Spec.in_enum, UNMERGED, MERGED_LEFT, MERGED_RIGHT. lia.
Qed.

End MergeState.

Lemma demo_replace_returns : Spec.replace_returns Demo.replace.
Proof. intros v e r s. discriminate. Qed.

Lemma demo_hunk_captured : Spec.captured Demo.hunk.
Proof. repeat split; discriminate. Qed.

Example demo_hunk_texts :
  HunkDiff.full_old_text Demo.hunk = Some (Demo.join ["b"])
  /\ HunkDiff.full_new_text Demo.hunk = Some (Demo.join ["B"; "c"])
  /\ HunkDiff.merge_state Demo.hunk = HunkDiff.UNMERGED
  /\ option_map fst (HunkDiff.merge Demo.replace Demo.hunk Demo.new_view tt "right")
     = Some ["a"; "b"].
Proof. repeat split. Qed.

Lemma merge_state_machine_witness :
  Spec.captured Demo.hunk
  /\ Spec.replace_returns Demo.replace
  /\ HunkDiff.merge_state Demo.hunk = HunkDiff.UNMERGED
  /\ HunkDiff.merge_valid Demo.hunk "right" = true
  /\ HunkDiff.merge_valid Demo.hunk "left" = true
  /\ exists v1 h1,
      HunkDiff.merge Demo.replace Demo.hunk Demo.new_view tt "right"
      = Some (v1, h1)
      /\ HunkDiff.merge_state h1 = HunkDiff.MERGED_RIGHT
      /\ HunkDiff.merge_valid h1 "right" = false
      /\ HunkDiff.merge_valid h1 "left" = true
      /\ exists v2 h2,
          HunkDiff.merge Demo.replace h1 v1 tt "left" = Some (v2, h2)
          /\ HunkDiff.merge_state h2 = HunkDiff.UNMERGED.
Proof.
  split; [exact demo_hunk_captured |].
  split; [exact demo_replace_returns |].
  split; [reflexivity |].
  exact (proj2 (proj2 (proj2 (proj2
           (merge_state_machine Demo.View Demo.Edit Demo.replace
              Demo.hunk Demo.new_view tt
              demo_hunk_captured demo_replace_returns)))) eq_refl).
Defined.

Lemma merge_leaves_enum_witness :
  HunkDiff.merge_state Demo.merged_right = HunkDiff.MERGED_RIGHT
  /\ Spec.captured Demo.merged_right
  /\ Spec.replace_returns Demo.replace
  /\ Spec.in_enum (HunkDiff.merge_state Demo.merged_right)
  /\ HunkDiff.merge_valid Demo.merged_right "right" = false
  /\ exists v' h',
      HunkDiff.merge Demo.replace Demo.merged_right Demo.old_view tt "right"
      = Some (v', h')
      /\ HunkDiff.merge_state h' = 2
      /\ ~ Spec.in_enum (HunkDiff.merge_state h').
Proof.
  assert (C : Spec.captured Demo.merged_right) by (repeat split; discriminate).
  split; [reflexivity |].
  split; [exact C |].
  split; [exact demo_replace_returns |].
  exact (merge_leaves_enum Demo.View Demo.Edit Demo.replace
           Demo.merged_right Demo.old_view tt
           eq_refl C demo_replace_returns).
Defined.

(** ** The loop of [parse_diff] *)

Section ParseDiff.

Import HunkDiff.

Lemma startswith_char (l : string) (c : ascii) :
  Py.startswith l (String c EmptyString)
  = match l with
    | String b _ => Ascii.eqb c b
    | EmptyString => false
    end.
Proof.
  destruct l as [| b l']; [reflexivity |].
  unfold Py.startswith. simpl.
  destruct (ascii_dec c b) as [-> | N].
  - rewrite Ascii.eqb_refl. now destruct l'.
  - symmetry. now apply Ascii.eqb_neq.
Qed.

Lemma plus_not_minus (l : string) :
  Py.startswith l "+" = true -> Py.startswith l "-" = false.
Proof.
  rewrite !startswith_char. destruct l as [| b l']; [discriminate |].
  intros E. apply Ascii.eqb_eq in E. now subst b.
Qed.

Lemma minus_not_plus (l : string) :
  Py.startswith l "-" = true -> Py.startswith l "+" = false.
Proof.
  rewrite !startswith_char. destruct l as [| b l']; [discriminate |].
  intros E. apply Ascii.eqb_eq in E. now subst b.
Qed.

Lemma blank_not_plus (l : string) :
  Py.startswith l " " = true -> Py.startswith l "+" = false.
Proof.
  rewrite !startswith_char. destruct l as [| b l']; [discriminate |].
  intros E. apply Ascii.eqb_eq in E. now subst b.
Qed.

Lemma blank_not_minus (l : string) :
  Py.startswith l " " = true -> Py.startswith l "-" = false.
Proof.
  rewrite !startswith_char. destruct l as [| b l']; [discriminate |].
  intros E. apply Ascii.eqb_eq in E. now subst b.
Qed.

Lemma run_loop_cons (st : loop) (l : string) (lines : list string) :
  run_loop st (l :: lines) = run_loop (loop_body st l) lines.
Proof. reflexivity. Qed.

(** *** The counters *)

Lemma add_lines_run (lines : list string) (st : loop) :
  l_add_lines (run_loop st (lines ++ [" "]))
  = l_add_lines st + Spec.count_lines "+" lines.
Proof.
  revert st. induction lines as [| l tl IH]; intros st.
  - cbn. lia.
  - cbn [app]. rewrite run_loop_cons, IH. cbn [Spec.count_lines].
    unfold loop_body; cbn [l_add_lines].
    destruct (Py.startswith l "+"); lia.
Qed.

Lemma del_lines_run (lines : list string) (st : loop) :
  l_del_lines (run_loop st (lines ++ [" "]))
  = l_del_lines st + Spec.count_lines "-" lines.
Proof.
  revert st. induction lines as [| l tl IH]; intros st.
  - cbn. lia.
  - cbn [app]. rewrite run_loop_cons, IH. cbn [Spec.count_lines].
    unfold loop_body; cbn [l_del_lines].
    destruct (Py.startswith l "-") eqn:M.
    + rewrite (minus_not_plus l M). lia.
    + destruct (Py.startswith l "+"); lia.
Qed.

(** *** The regions *)

Lemma new_regions_run (lines : list string) (st : loop) :
  l_new_regions (run_loop st (lines ++ [" "]))
  = l_new_regions st
    ++ (if in_add st
        then [mkDiffRegion "ADD" (new_add_start st) 0
                (new_cur_line st + Spec.run_len "+" lines) 0]
        else [])
    ++ Spec.runs "ADD" "+" "-" (in_add st) (new_cur_line st) lines.
Proof.
  revert st. induction lines as [| l tl IH]; intros st.
  - cbn. destruct (in_add st); cbn; rewrite ?Z.add_0_r, ?app_nil_r;
      reflexivity.
  - cbn [app]. rewrite run_loop_cons, IH.
    cbn [Spec.runs Spec.run_len].
    unfold loop_body;
      cbn [l_new_regions in_add new_add_start new_cur_line].
    destruct (Py.startswith l "+") eqn:P.
    + rewrite (plus_not_minus l P), Z.add_assoc.
      destruct (in_add st); cbn [andb negb app];
        rewrite ?app_nil_r, <- ?app_assoc; reflexivity.
    + destruct (in_add st); cbn [andb negb app];
        rewrite ?app_nil_r, <- ?app_assoc, ?Z.add_0_r; reflexivity.
Qed.

Lemma old_regions_run (lines : list string) (st : loop) :
  l_old_regions (run_loop st (lines ++ [" "]))
  = l_old_regions st
    ++ (if in_del st
        then [mkDiffRegion "DEL" (old_del_start st) 0
                (old_cur_line st + Spec.run_len "-" lines) 0]
        else [])
    ++ Spec.runs "DEL" "-" "+" (in_del st) (old_cur_line st) lines.
Proof.
  revert st. induction lines as [| l tl IH]; intros st.
  - cbn. destruct (in_del st); cbn; rewrite ?Z.add_0_r, ?app_nil_r;
      reflexivity.
  - cbn [app]. rewrite run_loop_cons, IH.
    cbn [Spec.runs Spec.run_len].
    unfold loop_body;
      cbn [l_old_regions in_del old_del_start old_cur_line].
    destruct (Py.startswith l "-") eqn:M.
    + rewrite (minus_not_plus l M), Z.add_assoc.
      destruct (in_del st); cbn [andb negb app];
        rewrite ?app_nil_r, <- ?app_assoc; reflexivity.
    + destruct (Py.startswith l "+");
        destruct (in_del st); cbn [andb negb app];
        rewrite ?app_nil_r, <- ?app_assoc, ?Z.add_0_r; reflexivity.
Qed.

(** *** The focus *)

Lemma focus_kept (lines : list string) (st : loop) :
  l_old_line_focus st <> -1 ->
  l_new_line_focus st <> -1 ->
  l_old_line_focus (run_loop st lines) = l_old_line_focus st
  /\ l_new_line_focus (run_loop st lines) = l_new_line_focus st.
Proof.
  revert st. induction lines as [| l tl IH]; intros st Ho Hn.
  - now split.
  - rewrite run_loop_cons.
    assert (E : l_old_line_focus (loop_body st l) = l_old_line_focus st
                /\ l_new_line_focus (loop_body st l) = l_new_line_focus st).
    { unfold loop_body; cbn [l_old_line_focus l_new_line_focus].
      apply Z.eqb_neq in Ho, Hn. rewrite Ho, Hn, !andb_false_r.
      now split. }
    destruct E as [Eo En].
    destruct (IH (loop_body st l)) as [Io In]; [congruence | congruence |].
    split; congruence.
Qed.

Lemma focus_run (lines : list string) (st : loop) :
  l_old_line_focus st = -1 ->
  l_new_line_focus st = -1 ->
  0 <= old_cur_line st ->
  0 <= new_cur_line st ->
  (l_old_line_focus (run_loop st (lines ++ [" "])),
   l_new_line_focus (run_loop st (lines ++ [" "])))
  = Spec.first_change (old_cur_line st) (new_cur_line st) lines.
Proof.
  revert st. induction lines as [| l tl IH]; intros st Ho Hn Co Cn.
  - cbn. now rewrite Ho, Hn.
  - cbn [app Spec.first_change]. rewrite run_loop_cons.
    destruct (Py.startswith l " ") eqn:B.
    + rewrite IH.
      * unfold loop_body; cbn [old_cur_line new_cur_line].
        now rewrite (blank_not_plus l B), (blank_not_minus l B).
      * unfold loop_body; cbn [l_old_line_focus]. now rewrite B.
      * unfold loop_body; cbn [l_new_line_focus]. now rewrite B.
      * unfold loop_body; cbn [old_cur_line].
        rewrite (blank_not_plus l B). lia.
      * unfold loop_body; cbn [new_cur_line].
        rewrite (blank_not_minus l B). lia.
    + assert (E : l_old_line_focus (loop_body st l) = old_cur_line st
                  /\ l_new_line_focus (loop_body st l) = new_cur_line st).
      { unfold loop_body; cbn [l_old_line_focus l_new_line_focus].
        now rewrite B, Ho, Hn. }
      destruct E as [Eo En].
      destruct (focus_kept (tl ++ [" "]) (loop_body st l)) as [Ko Kn];
        [lia | lia |].
      now rewrite Ko, Kn, Eo, En.
Qed.

(** *** The constructor *)

Lemma is_digit_val (c : ascii) :
  Py.is_digit c = true -> 0 <= Py.digit_val c <= 9.
Proof.
  unfold Py.is_digit, Py.digit_val. intros H.
  apply andb_true_iff in H. destruct H as [H1 H2].
  apply N.leb_le in H1, H2. lia.
Qed.

Lemma int_digits_nonneg (s : string) (acc : Z) :
  Py.all_digits s = true -> 0 <= acc -> 0 <= Py.int_digits acc s.
Proof.
  revert acc. induction s as [| c s IH]; intros acc D A; [exact A |].
  cbn [Py.all_digits Py.int_digits] in D |- *.
  apply andb_true_iff in D. destruct D as [Dc Ds].
  apply IH; [exact Ds |]. pose proof (is_digit_val c Dc). lia.
Qed.

Lemma int_nonneg (s : string) (z : Z) : Py.int s = Some z -> 0 <= z.
Proof.
  unfold Py.int. destruct s as [| c s]; [discriminate |].
  destruct (Py.all_digits (String c s)) eqn:D; [| discriminate].
  intros E. injection E as <-.
  apply (int_digits_nonneg (String c s) 0 D). lia.
Qed.

(** What [HunkDiff(file_diff, match)] holds when it returns. *)
Lemma init_inv (parts : list string) (h : t) :
  init parts = Some h ->
  let st :=
    parse_diff (old_line_start h) (new_line_start h) (hunk_diff_lines h) in
  0 <= old_line_start h
  /\ 0 <= new_line_start h
  /\ old_regions h = l_old_regions st
  /\ new_regions h = l_new_regions st
  /\ old_line_focus h = l_old_line_focus st
  /\ new_line_focus h = l_new_line_focus st
  /\ add_lines h = l_add_lines st
  /\ del_lines h = l_del_lines st
  /\ hunk_type h = classify (add_lines h) (del_lines h)
  /\ merge_state h = UNMERGED.
Proof.
  unfold init.
  destruct (item parts 0) as [m0 |]; [| discriminate].
  destruct (item parts 1) as [m1 |]; [| discriminate].
  destruct (item parts 2) as [m2 |]; [| discriminate].
  destruct (item parts 3) as [m3 |]; [| discriminate].
  destruct (item parts 4) as [m4 |]; [| discriminate].
  destruct (Py.int m0) as [old_start |] eqn:E0; [| discriminate].
  destruct (hunk_len m1) as [old_len |]; [| discriminate].
  destruct (Py.int m2) as [new_start |] eqn:E2; [| discriminate].
  destruct (hunk_len m3) as [new_len |]; [| discriminate].
  intros E. injection E as <-. cbn.
  apply int_nonneg in E0, E2.
  repeat split; assumption.
Qed.

Lemma add_lines_count (o n : Z) (lines : list string) :
  l_add_lines (parse_diff o n lines) = Spec.count_lines "+" lines.
Proof. unfold parse_diff. now rewrite add_lines_run. Qed.

Lemma del_lines_count (o n : Z) (lines : list string) :
  l_del_lines (parse_diff o n lines) = Spec.count_lines "-" lines.
Proof. unfold parse_diff. now rewrite del_lines_run. Qed.

Lemma count_lines_nonneg (p : string) (lines : list string) :
  0 <= Spec.count_lines p lines.
Proof.
  induction lines as [| l tl IH]; cbn [Spec.count_lines]; [lia |].
  destruct (Py.startswith l p); lia.
Qed.

(** *** Maximal runs *)

Section Runs.

Variables tag p other : string.
Hypothesis p_not_other :
  forall l, Py.startswith l p = true -> Py.startswith l other = false.

Lemma run_len_off_app (pre : list string) (x : string)
    (rest : list string) :
  Py.startswith x p = false ->
  Spec.run_len p ((pre ++ [x]) ++ rest) = Spec.run_len p (pre ++ [x]).
Proof.
  intros X. induction pre as [| a pre IH]; cbn [app Spec.run_len].
  - now rewrite X.
  - destruct (Py.startswith a p); [now rewrite IH | reflexivity].
Qed.

Lemma run_len_all (run post : list string) :
  Forall (fun l => Py.startswith l p = true) run ->
  (forall l, hd_error post = Some l -> Py.startswith l p = false) ->
  Spec.run_len p (run ++ post) = Z.of_nat (List.length run).
Proof.
  intros R P. induction R as [| a run A R IH].
  - cbn [app]. destruct post as [| b post]; [reflexivity |].
    cbn [Spec.run_len]. now rewrite (P b eq_refl).
  - cbn [app Spec.run_len]. rewrite A, IH.
    cbn [List.length]. lia.
Qed.

Lemma runs_prev_off (prev : bool) (cur : Z) (lines : list string) :
  (forall l, hd_error lines = Some l -> Py.startswith l p = false) ->
  Spec.runs tag p other prev cur lines
  = Spec.runs tag p other false cur lines.
Proof.
  intros P. destruct lines as [| a lines]; [reflexivity |].
  cbn [Spec.runs]. now rewrite (P a eq_refl).
Qed.

Lemma runs_off_app (pre : list string) (x : string) (rest : list string)
    (prev : bool) (cur : Z) :
  Py.startswith x p = false ->
  Spec.runs tag p other prev cur ((pre ++ [x]) ++ rest)
  = Spec.runs tag p other prev cur (pre ++ [x])
    ++ Spec.runs tag p other false
         (cur + Spec.side_lines other (pre ++ [x])) rest.
Proof.
  intros X. revert prev cur.
  induction pre as [| a pre IH]; intros prev cur.
  - cbn [app Spec.runs Spec.side_lines]. rewrite X.
    cbn [andb app].
    destruct (Py.startswith x other); f_equal; lia.
  - change (((a :: pre) ++ [x]) ++ rest) with (a :: (pre ++ [x]) ++ rest).
    change ((a :: pre) ++ [x]) with (a :: (pre ++ [x])).
    cbn [Spec.runs Spec.side_lines].
    change (a :: (pre ++ [x]) ++ rest) with (((a :: pre) ++ [x]) ++ rest).
    rewrite (run_len_off_app (a :: pre) x rest X).
    change ((a :: pre) ++ [x]) with (a :: (pre ++ [x])).
    rewrite IH, <- app_assoc. do 3 f_equal.
    destruct (Py.startswith a other); lia.
Qed.

Lemma runs_all (run post : list string) (prev : bool) (cur : Z) :
  Forall (fun l => Py.startswith l p = true) run ->
  (forall l, hd_error post = Some l -> Py.startswith l p = false) ->
  Spec.runs tag p other prev cur (run ++ post)
  = (match run with
     | [] => []
     | _ :: _ =>
         if prev then []
         else [mkDiffRegion tag cur 0 (cur + Z.of_nat (List.length run)) 0]
     end)
    ++ Spec.runs tag p other false (cur + Z.of_nat (List.length run)) post.
Proof.
  intros R P. revert prev cur.
  induction R as [| a run A R IH]; intros prev cur.
  - cbn [app]. cbn [List.length Z.of_nat].
    rewrite Z.add_0_r. now apply runs_prev_off.
  - change ((a :: run) ++ post) with (a :: (run ++ post)).
    cbn [Spec.runs].
    change (a :: (run ++ post)) with ((a :: run) ++ post).
    rewrite (run_len_all (a :: run) post (Forall_cons a A R) P).
    rewrite A, (p_not_other a A), IH.
    replace (cur + 1 + Z.of_nat (List.length run)) with (cur + Z.of_nat (List.length (a :: run)))
      by (cbn [List.length]; lia).
    destruct run as [| b run]; destruct prev; reflexivity.
Qed.

(** A maximal run gives one region, between the regions of what comes
    before the run and those of what comes after it. *)
Lemma runs_maximal_run (pre run post : list string) (cur : Z) :
  Spec.maximal_run p pre run post ->
  Spec.runs tag p other false cur (pre ++ run ++ post)
  = Spec.runs tag p other false cur pre
    ++ [mkDiffRegion tag (cur + Spec.side_lines other pre) 0
          (cur + Spec.side_lines other pre + Z.of_nat (List.length run)) 0]
    ++ Spec.runs tag p other false
         (cur + Spec.side_lines other pre + Z.of_nat (List.length run)) post.
Proof.
  intros (N & R & B & A).
  assert (E : forall c,
             Spec.runs tag p other false c (run ++ post)
             = [mkDiffRegion tag c 0 (c + Z.of_nat (List.length run)) 0]
               ++ Spec.runs tag p other false (c + Z.of_nat (List.length run)) post).
  { intros c. rewrite (runs_all run post false c R A).
    destruct run; [contradiction | reflexivity]. }
  destruct (rev pre) as [| x rpre] eqn:Erev.
  - assert (pre = []) as ->.
    { apply (f_equal (@rev string)) in Erev.
      now rewrite rev_involutive in Erev. }
    cbn [app Spec.runs Spec.side_lines]. rewrite Z.add_0_r. apply E.
  - assert (pre = rev rpre ++ [x]) as ->.
    { apply (f_equal (@rev string)) in Erev.
      now rewrite rev_involutive in Erev. }
    rewrite (runs_off_app (rev rpre) x (run ++ post) false cur
               (B x eq_refl)).
    now rewrite E.
Qed.

End Runs.

(** ** The parsed hunk *)

(** C3, as amended.  The type of a parsed hunk is ['ADD'] when no body
    line starts with [-] (also when no line starts with [+] either),
    ['DEL'] when no body line starts with [+] and some line starts with
    [-], and ['MOD'] when lines of both kinds are there; [add_lines] and
    [del_lines] are the two counts. *)
Theorem hunk_type_by_counts (parts : list string) (h : t) :
  init parts = Some h ->
  add_lines h = Spec.count_lines "+" (hunk_diff_lines h)
  /\ del_lines h = Spec.count_lines "-" (hunk_diff_lines h)
  /\ (Spec.count_lines "-" (hunk_diff_lines h) = 0 ->
      hunk_type h = "ADD")
  /\ (Spec.count_lines "+" (hunk_diff_lines h) = 0 ->
      Spec.count_lines "-" (hunk_diff_lines h) <> 0 ->
      hunk_type h = "DEL")
  /\ (Spec.count_lines "+" (hunk_diff_lines h) <> 0 ->
      Spec.count_lines "-" (hunk_diff_lines h) <> 0 ->
      hunk_type h = "MOD").
Proof.
  intros E. apply init_inv in E. cbv zeta in E.
  destruct E as (_ & _ & _ & _ & _ & _ & Ea & Ed & Et & _).
  rewrite add_lines_count in Ea. rewrite del_lines_count in Ed.
  rewrite Et, Ea, Ed. unfold classify.
  split; [reflexivity | split; [reflexivity |]].
  split; [| split].
  - intros ->. reflexivity.
  - intros -> D. apply Z.eqb_neq in D. now rewrite D.
  - intros A D. apply Z.eqb_neq in A, D. now rewrite D, A.
Qed.

(** C4.  For every hunk body, the regions of [new_regions] are the
    maximal runs of [+]-prefixed lines, one ['ADD'] region for each run
    in the order of the body, from the new-side number of the first line
    of the run to the number after its last line; and the regions of
    [old_regions] are the maximal runs of [-]-prefixed lines in the same
    way, with old-side numbers.  So each maximal run [run] of a body
    [pre ++ run ++ post] gives exactly one region, which spans the whole
    run and stands between the regions of [pre] and those of [post]; a
    run that goes up to the last body line ([post] empty) is closed by
    the dummy blank line and gives the last region. *)
Theorem regions_are_maximal_runs (old_start new_start : Z)
    (lines : list string) :
  l_new_regions (parse_diff old_start new_start lines)
  = Spec.add_runs new_start lines
  /\ l_old_regions (parse_diff old_start new_start lines)
     = Spec.del_runs old_start lines
  /\ (forall pre run post,
        lines = pre ++ run ++ post ->
        Spec.maximal_run "+" pre run post ->
        let first := new_start + Spec.side_lines "-" pre in
        let after := first + Z.of_nat (List.length run) in
        l_new_regions (parse_diff old_start new_start lines)
        = Spec.add_runs new_start pre
          ++ [mkDiffRegion "ADD" first 0 after 0]
          ++ Spec.add_runs after post)
  /\ (forall pre run post,
        lines = pre ++ run ++ post ->
        Spec.maximal_run "-" pre run post ->
        let first := old_start + Spec.side_lines "+" pre in
        let after := first + Z.of_nat (List.length run) in
        l_old_regions (parse_diff old_start new_start lines)
        = Spec.del_runs old_start pre
          ++ [mkDiffRegion "DEL" first 0 after 0]
          ++ Spec.del_runs after post).
Proof.
  assert (N : l_new_regions (parse_diff old_start new_start lines)
              = Spec.add_runs new_start lines).
  { unfold parse_diff, Spec.add_runs. now rewrite new_regions_run. }
  assert (O : l_old_regions (parse_diff old_start new_start lines)
              = Spec.del_runs old_start lines).
  { unfold parse_diff, Spec.del_runs. now rewrite old_regions_run. }
  split; [exact N | split; [exact O | split]].
  - intros pre run post -> M. cbv zeta. rewrite N.
    apply (runs_maximal_run "ADD" "+" "-" plus_not_minus pre run post
             new_start M).
  - intros pre run post -> M. cbv zeta. rewrite O.
    apply (runs_maximal_run "DEL" "-" "+" minus_not_plus pre run post
             old_start M).
Qed.

Lemma first_change_blank (o n : Z) (lines : list string) :
  forallb (fun l => Py.startswith l " ") lines = true ->
  Spec.first_change o n lines = (-1, -1).
Proof.
  revert o n. induction lines as [| l tl IH]; intros o n H; [reflexivity |].
  cbn [forallb] in H. apply andb_true_iff in H. destruct H as [Hl Ht].
  cbn [Spec.first_change]. rewrite Hl. now apply IH.
Qed.

Lemma first_change_found (o n : Z) (lines : list string) :
  forallb (fun l => Py.startswith l " ") lines = false ->
  exists i, 0 <= i /\ Spec.first_change o n lines = (o + i, n + i).
Proof.
  revert o n. induction lines as [| l tl IH]; intros o n H; [discriminate |].
  cbn [forallb] in H. cbn [Spec.first_change].
  destruct (Py.startswith l " ").
  - cbn [andb] in H. destruct (IH (o + 1) (n + 1) H) as (i & I & E).
    exists (1 + i). split; [lia |]. rewrite E. f_equal; lia.
  - exists 0. split; [lia |]. now rewrite !Z.add_0_r.
Qed.

(** C5, as amended.  Both focus lines are taken at the first body line
    that does not start with a blank, whatever that line starts with:
    [old_line_focus] is the old-side number of that line and
    [new_line_focus] its new-side number, each its start line plus the
    number of lines before that line.  They are both -1 when every
    body line starts with a blank, and only then. *)
Theorem focus_first_change (parts : list string) (h : t) :
  init parts = Some h ->
  (old_line_focus h, new_line_focus h)
  = Spec.first_change (old_line_start h) (new_line_start h)
      (hunk_diff_lines h)
  /\ (forallb (fun l => Py.startswith l " ") (hunk_diff_lines h) = true ->
      old_line_focus h = -1 /\ new_line_focus h = -1)
  /\ (forallb (fun l => Py.startswith l " ") (hunk_diff_lines h) = false ->
      exists i, 0 <= i
                /\ old_line_focus h = old_line_start h + i
                /\ new_line_focus h = new_line_start h + i).
Proof.
  intros E. apply init_inv in E. cbv zeta in E.
  destruct E as (Co & Cn & _ & _ & Eo & En & _).
  assert (F : (old_line_focus h, new_line_focus h)
              = Spec.first_change (old_line_start h) (new_line_start h)
                  (hunk_diff_lines h)).
  { rewrite Eo, En. unfold parse_diff. now rewrite focus_run. }
  split; [exact F | split].
  - intros B. rewrite (first_change_blank _ _ _ B) in F.
    now injection F.
  - intros B.
    destruct (first_change_found (old_line_start h) (new_line_start h)
                _ B) as (i & I & X).
    rewrite X in F. injection F as Fo Fn. now exists i.
Qed.

End ParseDiff.

Lemma demo_run_is_maximal :
  Spec.maximal_run "+" [" a"] ["+b"; "+c"] [].
Proof.
  split; [discriminate |].
  split; [repeat constructor |].
  split; cbn; intros l E; [injection E as <-; reflexivity | discriminate].
Qed.

Lemma regions_are_maximal_runs_witness :
  HunkDiff.l_new_regions (HunkDiff.parse_diff 7 7 [" a"; "+b"; "+c"])
  = [mkDiffRegion "ADD" 8 0 10 0].
Proof.
  exact (proj1 (proj2 (proj2
           (regions_are_maximal_runs 7 7 [" a"; "+b"; "+c"])))
           [" a"] ["+b"; "+c"] [] eq_refl demo_run_is_maximal).
Defined.

Lemma hunk_type_by_counts_witness :
  HunkDiff.init Demo.parts
  = Some (match HunkDiff.init Demo.parts with
          | Some h => h
          | None => Demo.blank
          end)
  /\ HunkDiff.hunk_type
       (match HunkDiff.init Demo.parts with
        | Some h => h
        | None => Demo.blank
        end) = "MOD".
Proof.
  split; [reflexivity |].
  refine (proj2 (proj2 (proj2 (proj2
            (hunk_type_by_counts Demo.parts _ eq_refl)))) _ _);
    discriminate.
Defined.

(** The claim C3 as it is written fails on a body without added or
    deleted lines: no line starts with [+], and the type is ['ADD'], not
    ['DEL']. *)
Lemma hunk_type_unchanged_body :
  exists h,
    HunkDiff.init Demo.unchanged_parts = Some h
    /\ Spec.count_lines "+" (HunkDiff.hunk_diff_lines h) = 0
    /\ HunkDiff.hunk_type h = "ADD"
    /\ HunkDiff.hunk_type h <> "DEL".
Proof.
  eexists. split; [reflexivity |].
  split; [reflexivity | split; [reflexivity | discriminate]].
Qed.

Lemma focus_first_change_witness :
  HunkDiff.init Demo.apart_parts
  = Some (match HunkDiff.init Demo.apart_parts with
          | Some h => h
          | None => Demo.blank
          end)
  /\ (HunkDiff.old_line_focus
        (match HunkDiff.init Demo.apart_parts with
         | Some h => h
         | None => Demo.blank
         end),
      HunkDiff.new_line_focus
        (match HunkDiff.init Demo.apart_parts with
         | Some h => h
         | None => Demo.blank
         end))
     = (10, 10).
Proof.
  split; [reflexivity |].
  exact (proj1 (focus_first_change Demo.apart_parts _ eq_refl)).
Defined.

(** The claim C5 as it is written fails on the body [-a], [ b], [+c] of
    a hunk at 10 and 10: the first [+]-prefixed line is line 11 of the new
    side, and [new_line_focus] is 10. *)
Lemma focus_not_first_plus :
  exists h,
    HunkDiff.init Demo.apart_parts = Some h
    /\ Spec.first_line_no "+" "-" (HunkDiff.new_line_start h)
         (HunkDiff.hunk_diff_lines h) = 11
    /\ HunkDiff.new_line_focus h = 10
    /\ HunkDiff.new_line_focus h
       <> Spec.first_line_no "+" "-" (HunkDiff.new_line_start h)
            (HunkDiff.hunk_diff_lines h).
Proof.
  eexists. split; [reflexivity |].
  split; [reflexivity | split; [reflexivity | discriminate]].
Qed.

(** C8.  The hunk with the header [@@ -5 +5,2 @@] (the old length left
    out) on a line of its own and the body lines [ctx] and [+added] has
    the old length 1 and the type ['ADD'], and it has exactly one
    ['ADD'] region, which goes from line 6 to line 7 of the new side and
    so spans line 6 of the new side; it has no old region.  [get_hunks]
    on a diff text with this one hunk returns this hunk. *)
Theorem header_then_body_lines :
  exists h r,
    HunkDiff.init Props.own_line_parts = Some h
    /\ option_map snd
         (FileDiff.get_hunks
            (FileDiff.init "f" "/f" Props.own_line_text) false)
       = Some [FileDiff.Hunk h]
    /\ HunkDiff.hunk_diff_lines h = ["ctx"; "+added"]
    /\ HunkDiff.old_line_start h = 5
    /\ HunkDiff.new_line_start h = 5
    /\ HunkDiff.old_hunk_len h = 1
    /\ HunkDiff.new_hunk_len h = 2
    /\ HunkDiff.hunk_type h = "ADD"
    /\ HunkDiff.new_regions h = [r]
    /\ r = mkDiffRegion "ADD" 6 0 7 0
    /\ kind r = "ADD"
    /\ Spec.region_lines r = [6]
    /\ HunkDiff.old_regions h = [].
Proof.
  eexists _, _. split; [reflexivity |].
  repeat split.
Qed.

(** When [ctx] stands on the line of the header itself, it is the
    [context] of the hunk and not a body line: [+added] is then the
    first body line, line 5 of the new side, and the one region goes
    from line 5 to line 6. *)
Example short_header_hunk :
  exists h,
    HunkDiff.init Demo.short_parts = Some h
    /\ option_map snd
         (FileDiff.get_hunks (FileDiff.init "f" "/f" Demo.short_text) false)
       = Some [FileDiff.Hunk h]
    /\ HunkDiff.old_hunk_len h = 1
    /\ HunkDiff.hunk_type h = "ADD"
    /\ HunkDiff.context h = "ctx"
    /\ HunkDiff.hunk_diff_lines h = ["+added"]
    /\ HunkDiff.new_regions h = [mkDiffRegion "ADD" 5 0 6 0]
    /\ map Spec.region_lines (HunkDiff.new_regions h) = [[5]]
    /\ HunkDiff.old_regions h = []
    /\ HunkDiff.new_line_focus h = 5.
Proof.
  eexists. split; [reflexivity |].
  repeat split.
Qed.

(** ** FileDiff *)

Section GetHunks.

Import FileDiff.

(** *** The matcher and the pattern *)

Lemma append_assoc (a b c : string) : (a +++ b) +++ c = a +++ b +++ c.
Proof. induction a as [| x a IH]; cbn; [reflexivity | now rewrite IH]. Qed.

Lemma append_nil_r (s : string) : s +++ EmptyString = s.
Proof. induction s as [| c s IH]; cbn; [reflexivity | now rewrite IH]. Qed.

Lemma strip_prefix_app (p s : string) : strip_prefix p (p +++ s) = Some s.
Proof.
  induction p as [| a p IH]; cbn; [reflexivity |].
  now rewrite Ascii.eqb_refl.
Qed.

Lemma strip_prefix_inv (p s r : string) :
  strip_prefix p s = Some r -> s = p +++ r.
Proof.
  revert s. induction p as [| a p IH]; intros s; cbn.
  - intros E. now injection E.
  - destruct s as [| b s]; [discriminate |].
    destruct (Ascii.eqb_spec a b) as [-> | N]; [| discriminate].
    intros E. now rewrite (IH s E).
Qed.

Lemma opt_char_inv (c : ascii) (s : string) :
  exists o, Spec.optional c o /\ s = o +++ opt_char c s.
Proof.
  destruct s as [| b s]; cbn.
  - exists EmptyString. split; [now left | reflexivity].
  - destruct (Ascii.eqb_spec b c) as [-> | N].
    + exists (String c EmptyString). split; [now right | reflexivity].
    + exists EmptyString. split; [now left | reflexivity].
Qed.

Lemma span_digits_app (d t : string) :
  Py.all_digits d = true -> Spec.no_digit_head t ->
  span_digits (d +++ t) = (d, t).
Proof.
  intros D T. induction d as [| c d IH]; cbn [String.append span_digits].
  - destruct t as [| b t]; [reflexivity |].
    cbn [span_digits]. cbn [Spec.no_digit_head] in T. now rewrite T.
  - cbn [Py.all_digits] in D. apply andb_true_iff in D.
    destruct D as [Dc Dd]. now rewrite Dc, (IH Dd).
Qed.

Lemma span_digits_inv (s d r : string) :
  span_digits s = (d, r) ->
  s = d +++ r /\ Py.all_digits d = true /\ Spec.no_digit_head r.
Proof.
  revert d r. induction s as [| c s IH]; intros d r; cbn [span_digits].
  - intros E. injection E as <- <-. now repeat split.
  - destruct (Py.is_digit c) eqn:Dc.
    + destruct (span_digits s) as [d' r'].
      intros E. injection E as <- <-.
      destruct (IH d' r' eq_refl) as (-> & D & R).
      cbn [Py.all_digits String.append]. rewrite Dc, D. now repeat split.
    + intros E. injection E as <- <-. now repeat split.
Qed.

Lemma all_digits_app (a b : string) :
  Py.all_digits a = true -> Py.all_digits b = true ->
  Py.all_digits (a +++ b) = true.
Proof.
  intros A B.
  induction a as [| c a IH]; cbn [String.append Py.all_digits]; [exact B |].
  cbn [Py.all_digits] in A. apply andb_true_iff in A.
  destruct A as [Ac Aa]. now rewrite Ac, (IH Aa).
Qed.

(** One side of the header is found whatever way it was put together. *)
Lemma range_complete (g1 c g2 t : string) :
  g1 <> EmptyString ->
  Py.all_digits g1 = true -> Py.all_digits g2 = true ->
  Spec.optional "," c ->
  range (g1 +++ c +++ g2 +++ String " " t) <> None.
Proof.
  intros N D1 D2 [-> | ->]; unfold range.
  - cbn [String.append]. rewrite <- append_assoc.
    rewrite span_digits_app;
      [| now apply all_digits_app | reflexivity].
    destruct (g1 +++ g2) as [| x y] eqn:E.
    + destruct g1; [contradiction | discriminate].
    + cbn [opt_char]. cbn. discriminate.
  - rewrite span_digits_app; [| exact D1 | reflexivity].
    destruct g1 as [| x y]; [contradiction |].
    cbn [opt_char String.append]. cbn [Ascii.eqb Bool.eqb].
    rewrite span_digits_app; [discriminate | exact D2 | reflexivity].
Qed.

Lemma range_tail (g1 c g2 t : string) (r : string * string * string) :
  g1 <> EmptyString ->
  Py.all_digits g1 = true -> Py.all_digits g2 = true ->
  Spec.optional "," c ->
  range (g1 +++ c +++ g2 +++ String " " t) = Some r ->
  snd r = String " " t.
Proof.
  intros N D1 D2 [-> | ->]; unfold range.
  - cbn [String.append]. rewrite <- append_assoc.
    rewrite span_digits_app;
      [| now apply all_digits_app | reflexivity].
    destruct (g1 +++ g2) as [| x y] eqn:E; [discriminate |].
    cbn. intros H. now injection H as <-.
  - rewrite span_digits_app; [| exact D1 | reflexivity].
    destruct g1 as [| x y]; [contradiction |].
    cbn [opt_char String.append]. cbn [Ascii.eqb Bool.eqb].
    rewrite span_digits_app; [| exact D2 | reflexivity].
    intros H. now injection H as <-.
Qed.

Lemma range_inv (s a b t : string) :
  range s = Some (a, b, t) ->
  a <> EmptyString
  /\ Py.all_digits a = true /\ Py.all_digits b = true
  /\ exists c, Spec.optional "," c /\ s = a +++ c +++ b +++ t.
Proof.
  unfold range.
  destruct (span_digits s) as [start s1] eqn:E1.
  apply span_digits_inv in E1. destruct E1 as (-> & D1 & _).
  destruct start as [| x y]; [discriminate |].
  destruct (span_digits (opt_char "," s1)) as [count s2] eqn:E2.
  apply span_digits_inv in E2. destruct E2 as (E2 & D2 & _).
  intros H. injection H as <- <- <-.
  split; [discriminate | split; [exact D1 | split; [exact D2 |]]].
  destruct (opt_char_inv "," s1) as (c & C & Es).
  exists c. split; [exact C |]. now rewrite <- E2, <- Es.
Qed.

(** The matcher finds a header wherever the pattern has a match. *)
Lemma match_header_complete (s : string) :
  Spec.header_at s -> match_header s <> None.
Proof.
  intros (hd & g1 & g2 & g3 & g4 & rest & H & ->).
  destruct H as (cr & c1 & c2 & Ccr & C1 & C2 & N1 & N3
                 & D1 & D2 & D3 & D4 & ->).
  rewrite !append_assoc.
  set (tail3 := g3 +++ c2 +++ g4 +++ " @@" +++ rest).
  set (tail1 := g1 +++ c1 +++ g2 +++ " +" +++ tail3).
  assert (E : strip_prefix (String Py.LF "@@ -")
                (opt_char Py.CR (cr +++ String Py.LF "@@ -" +++ tail1))
              = Some tail1).
  { destruct Ccr as [-> | ->]; cbn [String.append opt_char];
      cbn [Ascii.eqb Bool.eqb Py.LF Py.CR andb];
      apply (strip_prefix_app (String Py.LF "@@ -")). }
  unfold match_header. rewrite E. subst tail1.
  change (" +" +++ tail3) with (String " " (String "+" tail3)).
  pose proof (range_complete g1 c1 g2 (String "+" tail3) N1 D1 D2 C1) as R1.
  destruct (range (g1 +++ c1 +++ g2 +++ String " " (String "+" tail3)))
    as [[[a1 b1] t1] |] eqn:E1; [| contradiction].
  apply (range_tail g1 c1 g2 _ _ N1 D1 D2 C1) in E1. cbn [snd] in E1.
  subst t1.
  change (String " " (String "+" tail3)) with (" +" +++ tail3).
  rewrite strip_prefix_app.
  subst tail3.
  change (" @@" +++ rest) with (String " " ("@@" +++ rest)).
  pose proof (range_complete g3 c2 g4 ("@@" +++ rest) N3 D3 D4 C2) as R3.
  destruct (range (g3 +++ c2 +++ g4 +++ String " " ("@@" +++ rest)))
    as [[[a3 b3] t3] |] eqn:E3; [| contradiction].
  apply (range_tail g3 c2 g4 _ _ N3 D3 D4 C2) in E3. cbn [snd] in E3.
  subst t3.
  change (String " " ("@@" +++ rest)) with (" @@" +++ rest).
  rewrite strip_prefix_app. discriminate.
Qed.

(** What the matcher finds is a match of the pattern, with the four
    groups it returns. *)
Lemma match_header_sound (s g1 g2 g3 g4 rest : string) :
  match_header s = Some (g1, g2, g3, g4, rest) ->
  exists hd, Spec.header_text hd g1 g2 g3 g4 /\ s = hd +++ rest.
Proof.
  unfold match_header.
  destruct (strip_prefix (String Py.LF "@@ -") (opt_char Py.CR s))
    as [s1 |] eqn:E0; [| discriminate].
  destruct (range s1) as [[[a1 b1] s2] |] eqn:E1; [| discriminate].
  destruct (strip_prefix " +" s2) as [s3 |] eqn:E2; [| discriminate].
  destruct (range s3) as [[[a3 b3] s4] |] eqn:E3; [| discriminate].
  destruct (strip_prefix " @@" s4) as [r |] eqn:E4; [| discriminate].
  intros H. injection H as <- <- <- <- <-.
  apply strip_prefix_inv in E0, E2, E4.
  apply range_inv in E1, E3.
  destruct E1 as (N1 & D1 & D2 & c1 & C1 & ->).
  destruct E3 as (N3 & D3 & D4 & c2 & C2 & ->).
  destruct (opt_char_inv Py.CR s) as (cr & Ccr & Es).
  subst s4 s2.
  exists (cr +++ String Py.LF "@@ -" +++ a1 +++ c1 +++ b1
          +++ " +" +++ a3 +++ c2 +++ b3 +++ " @@").
  split.
  - exists cr, c1, c2. now repeat split.
  - rewrite Es, E0, !append_assoc. reflexivity.
Qed.

Lemma has_header_cons (c : ascii) (s : string) :
  Spec.has_header (String c s)
  = match match_header (String c s) with
    | Some _ => true
    | None => Spec.has_header s
    end.
Proof. reflexivity. Qed.

Lemma has_header_false_match (s : string) :
  Spec.has_header s = false -> match_header s = None.
Proof.
  destruct s as [| c s]; [reflexivity |].
  rewrite has_header_cons.
  now destruct (match_header (String c s)).
Qed.

(** The search of the matcher over all positions and the pattern agree
    on the texts without a header. *)
Lemma has_header_false (text : string) :
  Spec.has_header text = false <-> Spec.no_header text.
Proof.
  split.
  - induction text as [| c t IH]; intros H pre suf E A.
    + destruct pre; [| discriminate]. cbn in E. subst suf.
      now apply match_header_complete in A.
    + destruct pre as [| x pre]; cbn in E.
      * subst suf. apply match_header_complete in A.
        now apply has_header_false_match in H.
      * injection E as <- E. rewrite has_header_cons in H.
        destruct (match_header (String c t)); [discriminate |].
        exact (IH H pre suf E A).
  - induction text as [| c t IH]; intros H; [reflexivity |].
    rewrite has_header_cons.
    destruct (match_header (String c t))
      as [[[[[g1 g2] g3] g4] rest] |] eqn:E.
    + exfalso. apply match_header_sound in E.
      destruct E as (hd & T & E).
      apply (H EmptyString (String c t) eq_refl).
      now exists hd, g1, g2, g3, g4, rest.
    + apply IH. intros pre suf E'. apply (H (String c pre) suf).
      cbn. now rewrite E'.
Qed.

Lemma match_header_line_end (c : ascii) (s : string) :
  Ascii.eqb c Py.LF = false -> Ascii.eqb c Py.CR = false ->
  match_header (String c s) = None.
Proof.
  intros L R. unfold match_header. cbn [opt_char]. rewrite R.
  cbn [strip_prefix]. rewrite Ascii.eqb_sym in L. now rewrite L.
Qed.

Lemma has_header_skip (head rest : string) :
  Spec.line_end_free head = true ->
  Spec.has_header (head +++ rest) = Spec.has_header rest.
Proof.
  induction head as [| c head IH]; intros F; [reflexivity |].
  cbn [Spec.line_end_free] in F.
  apply andb_true_iff in F. destruct F as [F Fh].
  apply andb_true_iff in F. destruct F as [Fl Fr].
  apply negb_true_iff in Fl, Fr.
  cbn [String.append]. rewrite has_header_cons.
  now rewrite (match_header_line_end c _ Fl Fr), IH.
Qed.

Lemma line_end_free_app (a b : string) :
  Spec.line_end_free (a +++ b)
  = Spec.line_end_free a && Spec.line_end_free b.
Proof.
  induction a as [| c a IH]; [reflexivity |].
  cbn [String.append Spec.line_end_free].
  now rewrite IH, andb_assoc.
Qed.

Lemma digits_line_end_free (s : string) :
  Py.all_digits s = true -> Spec.line_end_free s = true.
Proof.
  induction s as [| c s IH]; [reflexivity |].
  cbn [Py.all_digits Spec.line_end_free]. intros D.
  apply andb_true_iff in D. destruct D as [Dc Ds].
  rewrite (IH Ds), andb_true_r.
  destruct (Ascii.eqb_spec c Py.LF) as [-> | _]; [discriminate |].
  destruct (Ascii.eqb_spec c Py.CR) as [-> | _]; [discriminate |].
  reflexivity.
Qed.

Lemma header_line_free (a b c d : string) :
  Py.all_digits a = true -> Py.all_digits b = true ->
  Py.all_digits c = true -> Py.all_digits d = true ->
  Spec.line_end_free (Spec.header_line a b c d) = true.
Proof.
  intros A B C D. unfold Spec.header_line.
  rewrite !line_end_free_app.
  rewrite (digits_line_end_free a A), (digits_line_end_free b B),
    (digits_line_end_free c C), (digits_line_end_free d D).
  reflexivity.
Qed.

Lemma append_char_assoc (cur : string) (c : ascii) (s : string) :
  (cur +++ String c EmptyString) +++ s = cur +++ String c s.
Proof. now rewrite append_assoc. Qed.

(** Without a header to find, the split is the one piece of the whole
    text. *)
Lemma split_no_header (s cur : string) :
  Spec.has_header s = false ->
  split_from O cur s = [cur +++ s].
Proof.
  revert cur. induction s as [| c s IH]; intros cur H.
  - cbn. now rewrite append_nil_r.
  - rewrite has_header_cons in H. cbn [split_from].
    destruct (match_header (String c s)) as [m |]; [discriminate |].
    rewrite (IH _ H). now rewrite append_char_assoc.
Qed.

Lemma no_header_no_hunks (filename abs_filename text : string) :
  Spec.has_header text = false ->
  option_map snd (get_hunks (init filename abs_filename text) false)
  = Some [].
Proof.
  intros H. unfold get_hunks, parse_diff.
  cbn [hunks init diff_text].
  unfold hunk_split. rewrite (split_no_header _ _ H).
  reflexivity.
Qed.

(** *** [get_hunks] returns *)

Lemma split_from_ok (s : string) (skip : nat) (cur : string) :
  Spec.pieces_ok (split_from skip cur s).
Proof.
  revert skip cur. induction s as [| c s IH]; intros skip cur.
  - constructor.
  - cbn [split_from]. destruct skip as [| k]; [| apply IH].
    destruct (match_header (String c s))
      as [[[[[g1 g2] g3] g4] rest] |] eqn:E; [| apply IH].
    apply match_header_sound in E. destruct E as (hd & T & _).
    destruct T as (cr & c1 & c2 & _ & _ & _ & N1 & N3
                   & D1 & D2 & D3 & D4 & _).
    constructor; try assumption. apply IH.
Qed.

Lemma int_digits_some (g : string) :
  g <> EmptyString -> Py.all_digits g = true ->
  exists z, Py.int g = Some z.
Proof.
  intros N D. unfold Py.int. destruct g as [| c g]; [contradiction |].
  rewrite D. now eexists.
Qed.

Lemma hunk_len_some (g : string) :
  Py.all_digits g = true -> exists z, HunkDiff.hunk_len g = Some z.
Proof.
  intros D. unfold HunkDiff.hunk_len.
  destruct g as [| c g]; [now exists 1 |].
  destruct (0 <? Py.len (String c g)); [| now exists 1].
  apply int_digits_some; [discriminate | exact D].
Qed.

(** The constructor returns on what the header pattern captures. *)
Lemma hunk_init_some (g1 g2 g3 g4 body : string) :
  g1 <> EmptyString -> g3 <> EmptyString ->
  Py.all_digits g1 = true -> Py.all_digits g2 = true ->
  Py.all_digits g3 = true -> Py.all_digits g4 = true ->
  exists h, HunkDiff.init [g1; g2; g3; g4; body] = Some h.
Proof.
  intros N1 N3 D1 D2 D3 D4. unfold HunkDiff.init.
  cbn [HunkDiff.item nth_error].
  destruct (int_digits_some g1 N1 D1) as [z1 ->].
  destruct (hunk_len_some g2 D2) as [z2 ->].
  destruct (int_digits_some g3 N3 D3) as [z3 ->].
  destruct (hunk_len_some g4 D4) as [z4 ->].
  now eexists.
Qed.

Lemma build_hunks_some (pieces : list string) :
  Spec.pieces_ok pieces ->
  forall acc, exists hs, build_hunks acc (tl pieces) = Some hs.
Proof.
  induction 1 as [piece | piece g1 g2 g3 g4 rest N1 N3 D1 D2 D3 D4 R IH];
    intros acc.
  - now exists acc.
  - cbn [tl]. destruct R as [body | body h1 h2 h3 h4 rest' ? ? ? ? ? ? R'].
    + cbn [build_hunks].
      destruct (hunk_init_some g1 g2 g3 g4 body N1 N3 D1 D2 D3 D4)
        as [h ->].
      now eexists.
    + cbn [build_hunks].
      destruct (hunk_init_some g1 g2 g3 g4 body N1 N3 D1 D2 D3 D4)
        as [h ->].
      apply (IH (acc ++ [Hunk h])).
Qed.

(** In the model, where [int] takes a string of digits of any length,
    [parse_diff], and so [get_hunks], returns on every diff text. *)
Lemma parse_diff_returns (fd : t) (include_headers : bool) :
  exists fd', parse_diff fd include_headers = Some fd'.
Proof.
  unfold parse_diff, hunk_split.
  pose proof (split_from_ok (diff_text fd) O EmptyString) as K.
  pose proof (build_hunks_some _ K (hunks fd)) as [hs B].
  destruct K as [piece | piece g1 g2 g3 g4 rest];
    cbn [tl] in B; rewrite B; now eexists.
Qed.

Lemma get_hunks_returns (fd : t) (include_headers : bool) :
  exists fd' r, get_hunks fd include_headers = Some (fd', r).
Proof.
  unfold get_hunks. destruct (hunks fd) as [| e es].
  - destruct (parse_diff_returns fd include_headers) as [fd' ->].
    now eexists _, _.
  - now eexists _, _.
Qed.

(** *** A header with and without its line end *)

Lemma length_append (a b : string) :
  String.length (a +++ b) = (String.length a + String.length b)%nat.
Proof. induction a as [| c a IH]; cbn; [reflexivity | now rewrite IH]. Qed.

Lemma split_from_skip (x rest cur : string) :
  split_from (String.length x) cur (x +++ rest) = split_from O cur rest.
Proof.
  induction x as [| c x IH]; [| exact IH].
  cbn [String.length String.append]. now destruct rest.
Qed.

Lemma range_comma (a b t : string) :
  a <> EmptyString ->
  Py.all_digits a = true -> Py.all_digits b = true ->
  range (a +++ "," +++ b +++ String " " t) = Some (a, b, String " " t).
Proof.
  intros N A B. unfold range.
  rewrite span_digits_app; [| exact A | reflexivity].
  destruct a as [| x y]; [contradiction |].
  cbn [opt_char String.append]. cbn [Ascii.eqb Bool.eqb].
  rewrite span_digits_app; [reflexivity | exact B | reflexivity].
Qed.

(** With a line end in front, the text [@@ -a,b +c,d @@] is matched,
    with the four numbers as the groups. *)
Lemma match_header_line (a b c d rest : string) :
  a <> EmptyString -> c <> EmptyString ->
  Py.all_digits a = true -> Py.all_digits b = true ->
  Py.all_digits c = true -> Py.all_digits d = true ->
  match_header (String Py.LF (Spec.header_line a b c d +++ rest))
  = Some (a, b, c, d, rest).
Proof.
  intros Na Nc A B C D. unfold Spec.header_line.
  rewrite !append_assoc. unfold match_header.
  cbn [opt_char]. cbn [Ascii.eqb Bool.eqb Py.LF Py.CR].
  change (String Py.LF ("@@ -" +++ a +++ "," +++ b +++ " +" +++ c +++ ","
                         +++ d +++ " @@" +++ rest))
    with (String Py.LF "@@ -" +++ a +++ "," +++ b +++ " +" +++ c +++ ","
          +++ d +++ " @@" +++ rest).
  rewrite strip_prefix_app.
  change (" +" +++ c +++ "," +++ d +++ " @@" +++ rest)
    with (String " " ("+" +++ c +++ "," +++ d +++ " @@" +++ rest)).
  rewrite (range_comma a b _ Na A B).
  change (String " " ("+" +++ c +++ "," +++ d +++ " @@" +++ rest))
    with (" +" +++ c +++ "," +++ d +++ " @@" +++ rest).
  rewrite strip_prefix_app.
  change (" @@" +++ rest) with (String " " ("@@" +++ rest)).
  rewrite (range_comma c d _ Nc C D).
  change (String " " ("@@" +++ rest)) with (" @@" +++ rest).
  now rewrite strip_prefix_app.
Qed.

(** With a line end in front of it and no other header after it, the
    header gives one hunk. *)
Lemma one_header_one_hunk (filename abs_filename a b c d rest : string) :
  a <> EmptyString -> c <> EmptyString ->
  Py.all_digits a = true -> Py.all_digits b = true ->
  Py.all_digits c = true -> Py.all_digits d = true ->
  Spec.has_header rest = false ->
  exists h,
    HunkDiff.init [a; b; c; d; rest] = Some h
    /\ option_map snd
         (get_hunks
            (init filename abs_filename
               (String Py.LF (Spec.header_line a b c d +++ rest))) false)
       = Some [Hunk h].
Proof.
  intros Na Nc A B C D H.
  destruct (hunk_init_some a b c d rest Na Nc A B C D) as [h E].
  exists h. split; [exact E |].
  unfold get_hunks, parse_diff. cbn [hunks init diff_text].
  unfold hunk_split. cbn [split_from].
  rewrite (match_header_line a b c d rest Na Nc A B C D).
  rewrite length_append, Nat.add_sub, split_from_skip.
  rewrite (split_no_header rest EmptyString H).
  cbn [String.append build_hunks]. rewrite E. reflexivity.
Qed.

(** Once [hunks] is not empty, [get_hunks] returns it as it is and does
    not parse. *)
Lemma get_hunks_memo (fd : t) (args : list bool) :
  hunks fd <> [] ->
  get_hunks_calls fd args
  = Some (fd, map (fun _ => hunks fd) args).
Proof.
  intros N. induction args as [| a args IH]; [reflexivity |].
  cbn [get_hunks_calls map]. unfold get_hunks.
  destruct (hunks fd) as [| e es] eqn:E; [contradiction |].
  now rewrite IH.
Qed.

Lemma get_hunks_once_nonempty (fd fd1 : t) (a : bool) (r : list entry)
    (args : list bool) :
  get_hunks fd a = Some (fd1, r) ->
  r <> [] ->
  get_hunks_calls fd1 args = Some (fd1, map (fun _ => r) args).
Proof.
  intros E N.
  assert (R : r = hunks fd1).
  { unfold get_hunks in E. destruct (hunks fd) as [| e es] eqn:H.
    - destruct (parse_diff fd a) as [fd' |]; [| discriminate].
      now injection E as <- <-.
    - injection E as <- <-. now rewrite H. }
  subst r. now apply get_hunks_memo.
Qed.

(** While the list is empty, every call parses. *)
Lemma get_hunks_empty_parses (fd fd1 : t) (a : bool) (r : list entry) :
  hunks fd = [] ->
  get_hunks fd a = Some (fd1, r) ->
  parses fd1 = S (parses fd).
Proof.
  intros H. unfold get_hunks, parse_diff. rewrite H.
  destruct (hunk_split (diff_text fd)) as [| x pieces]; [discriminate |].
  destruct (build_hunks [] pieces) as [hs |]; [| discriminate].
  intros E. now injection E as <- _.
Qed.

End GetHunks.

(** C9 at the failing input: a [FileDiff] whose text has no hunk.
    [get_hunks(False)] parses and returns the list, empty;
    [get_hunks(True)] then parses again, the list gets the dummy hunk,
    and the second call returns a list of one element.  The text has
    been parsed twice, and a third call would parse no more. *)
Theorem get_hunks_parses_again_when_empty :
  let fd := FileDiff.init "f" "/f" Demo.no_hunk_text in
  exists fd1 fd2,
    FileDiff.get_hunks fd false = Some (fd1, [])
    /\ FileDiff.parses fd1 = 1%nat
    /\ FileDiff.get_hunks fd1 true = Some (fd2, [FileDiff.DummyHunk 0])
    /\ FileDiff.parses fd2 = 2%nat
    /\ FileDiff.get_hunks_calls fd [false; true; false]
       = Some (fd2, [[]; [FileDiff.DummyHunk 0]; [FileDiff.DummyHunk 0]]).
Proof.
  eexists _, _. repeat split.
Qed.

(** C10.  A hunk header is only found with a line end in front of it.
    A diff text that begins with [@@ -a,b +c,d @@] and has no header
    (with its line end) further down gives no hunk:
    [get_hunks(include_headers=False)] returns the empty list.  The same
    text after a line end gives one hunk. *)
Theorem header_needs_line_end
    (filename abs_filename a b c d rest : string) :
  a <> EmptyString -> c <> EmptyString ->
  Py.all_digits a = true -> Py.all_digits b = true ->
  Py.all_digits c = true -> Py.all_digits d = true ->
  Spec.no_header rest ->
  let text := Spec.header_line a b c d +++ rest in
  Spec.no_header text
  /\ option_map snd
       (FileDiff.get_hunks (FileDiff.init filename abs_filename text) false)
     = Some []
  /\ exists h,
      option_map snd
        (FileDiff.get_hunks
           (FileDiff.init filename abs_filename (String Py.LF text)) false)
      = Some [FileDiff.Hunk h].
Proof.
  intros Na Nc A B C D H. cbv zeta.
  apply has_header_false in H.
  assert (F : Spec.has_header (Spec.header_line a b c d +++ rest) = false).
  { rewrite has_header_skip; [exact H |].
    now apply header_line_free. }
  split; [now apply has_header_false |].
  split; [now apply no_header_no_hunks |].
  destruct (one_header_one_hunk filename abs_filename a b c d rest
              Na Nc A B C D H) as (h & _ & E).
  now exists h.
Qed.

(** The same for every diff text in which no position starts a header,
    whatever it begins with. *)
Lemma no_header_empty_list (filename abs_filename text : string) :
  Spec.no_header text ->
  option_map snd
    (FileDiff.get_hunks (FileDiff.init filename abs_filename text) false)
  = Some [].
Proof.
  intros H. apply has_header_false in H. now apply no_header_no_hunks.
Qed.

Lemma demo_rest_no_header :
  Spec.no_header (Demo.text [" ctx"; " a"; "+new"; " b"]).
Proof. now apply has_header_false. Qed.

Lemma header_needs_line_end_witness :
  Spec.no_header (Demo.text [" ctx"; " a"; "+new"; " b"])
  /\ option_map snd
       (FileDiff.get_hunks (FileDiff.init "f" "/f" Demo.headed_text) false)
     = Some [].
Proof.
  split; [exact demo_rest_no_header |].
  refine (proj1 (proj2
            (header_needs_line_end "f" "/f" "1" "2" "1" "3"
               (Demo.text [" ctx"; " a"; "+new"; " b"])
               _ _ eq_refl eq_refl eq_refl eq_refl demo_rest_no_header)));
    discriminate.
Defined.

(** ** The model on some texts *)

Example newline_split_demo :
  Py.newline_split
    ("a" +++ String Py.CR (String Py.LF ("b" +++ String Py.CR ("c"
       +++ String Py.LF EmptyString))))
  = ["a"; "b" +++ String Py.CR "c"; ""].
Proof. reflexivity. Qed.

Example init_demo :
  option_map HunkDiff.new_regions (HunkDiff.init Demo.short_parts)
  = Some [mkDiffRegion "ADD" 5 0 6 0].
Proof. reflexivity. Qed.

Example split_demo :
  FileDiff.hunk_split
    (Demo.text ["diff"; "@@ -5 +5,2 @@ctx";
                "+added" +++ String Py.CR EmptyString; "@@ -7,2 +8 @@"])
  = ["diff"; "5"; ""; "5"; "2"; Demo.text ["ctx"; "+added"];
     "7"; "2"; "8"; ""; ""].
Proof. reflexivity. Qed.

Example split_cr_demo :
  FileDiff.hunk_split
    (String Py.CR (String Py.CR (String Py.LF "@@ -1 +1 @@x")))
  = [String Py.CR EmptyString; "1"; ""; "1"; ""; "x"].
Proof. reflexivity. Qed.

Example split_two_commas_demo :
  FileDiff.hunk_split (String Py.LF "@@ -12,,3 +1 @@")
  = [String Py.LF "@@ -12,,3 +1 @@"].
Proof. reflexivity. Qed.

Example focus_only_added_demo :
  option_map (fun h => (HunkDiff.old_line_focus h, HunkDiff.new_line_focus h))
    (HunkDiff.init Demo.short_parts)
  = Some (5, 5).
Proof. reflexivity. Qed.

Example focus_empty_line_demo :
  option_map (fun h => (HunkDiff.old_line_focus h, HunkDiff.new_line_focus h))
    (HunkDiff.init ["3"; "1"; "3"; "1"; Demo.text ["ctx"; " same"; ""]])
  = Some (4, 4).
Proof. reflexivity. Qed.

(** * Further properties of the code *)

(** ** Merging *)

Section Merging.

Import HunkDiff.

Variable View : Type.
Variable Edit : Type.
Variable text_point : View -> Z -> Z -> Z.
Variable substr : View -> Region -> string.
Variable replace : View -> Edit -> option Region -> string -> option View.
Variable region_bool : Region -> bool.

Lemma set_merge_state_same (h : t) : set_merge_state h (merge_state h) = h.
Proof. now destruct h. Qed.

Lemma set_merge_state_twice (h : t) (a b : Z) :
  set_merge_state (set_merge_state h a) b = set_merge_state h b.
Proof. reflexivity. Qed.

(** X1.  A merge that [merge_valid] allows keeps [merge_state] among
    UNMERGED, MERGED_LEFT and MERGED_RIGHT: from UNMERGED it goes to the
    state of the direction, and from a merged state it goes back to
    UNMERGED.  After it the merge in the other direction is valid, and
    the same direction is valid only if the hunk is back to UNMERGED. *)
Theorem valid_merge_keeps_enum (h h' : t) (view view' : View) (edit : Edit)
    (d : string) :
  d = "right" \/ d = "left" ->
  merge_valid h d = true ->
  merge replace h view edit d = Some (view', h') ->
  Spec.in_enum (merge_state h')
  /\ (merge_state h = UNMERGED ->
      merge_state h' = (if String.eqb d "right"
                        then MERGED_RIGHT else MERGED_LEFT))
  /\ (merge_state h <> UNMERGED -> merge_state h' = UNMERGED)
  /\ merge_valid h' (Props.opposite d) = true
  /\ merge_valid h' d = (merge_state h' =? UNMERGED).
Proof.
  intros D V E. apply merge_moves_by_one in E. subst h'.
  cbn [merge_state set_merge_state].
  unfold merge_valid in *. unfold Spec.in_enum, Props.opposite.
  cbn [merge_state set_merge_state].
  unfold UNMERGED, MERGED_LEFT, MERGED_RIGHT in *.
  destruct D as [-> | ->]; cbn [String.eqb Ascii.eqb Bool.eqb andb] in *;
    destruct (Z.eqb_spec (merge_state h) 0) as [-> | N0].
  - cbn. repeat split; try lia; intros; lia.
  - destruct (Z.eqb_spec (merge_state h) (-1)) as [-> | N1];
      [| rewrite andb_false_r in V; cbn in V;
         destruct (merge_state h =? 1); discriminate].
    cbn. repeat split; try lia; intros; lia.
  - cbn. repeat split; try lia; intros; lia.
  - rewrite andb_false_r in V.
    destruct (Z.eqb_spec (merge_state h) 1) as [-> | N1];
      [| destruct (merge_state h =? -1); discriminate].
    cbn. repeat split; try lia; intros; lia.
Qed.

(** X2.  A merge followed by the merge in the other direction leaves the
    hunk exactly as it was: the state is back and nothing else of the
    hunk has changed. *)
Theorem merge_then_opposite (h h1 h2 : t) (v v1 v2 : View) (edit : Edit)
    (d : string) :
  d = "right" \/ d = "left" ->
  merge replace h v edit d = Some (v1, h1) ->
  merge replace h1 v1 edit (Props.opposite d) = Some (v2, h2) ->
  h2 = h.
Proof.
  intros D E1 E2.
  apply merge_moves_by_one in E1. subst h1.
  apply merge_moves_by_one in E2. subst h2.
  rewrite set_merge_state_twice. cbn [merge_state set_merge_state].
  rewrite <- (set_merge_state_same h) at 3. f_equal.
  destruct D as [-> | ->]; cbn; lia.
Qed.

(** X3.  The direction is not checked: every direction other than
    ['right'] is merged as ['left'] is, by [merge] and by
    [merge_changing_view], although [merge_valid] accepts a direction
    that is neither ['right'] nor ['left'] on an unmerged hunk only. *)
Theorem other_direction_is_left (h : t) (view : View) (edit : Edit)
    (d : string) :
  d <> "right" ->
  merge replace h view edit d = merge replace h view edit "left"
  /\ merge_changing_view h d = merge_changing_view h "left"
  /\ (d <> "left" -> merge_valid h d = (merge_state h =? UNMERGED)).
Proof.
  intros N. apply String.eqb_neq in N.
  unfold merge, merge_region, merge_changing_view, merge_valid.
  rewrite N. cbn [String.eqb Ascii.eqb Bool.eqb].
  split; [reflexivity | split; [reflexivity |]].
  intros L. apply String.eqb_neq in L. rewrite L, !andb_false_r.
  now destruct (merge_state h =? UNMERGED).
Qed.

Lemma init_fresh (parts : list string) (h : t) :
  init parts = Some h -> Props.fresh h.
Proof.
  unfold init. intros E.
  destruct (item parts 0); [| discriminate].
  destruct (item parts 1); [| discriminate].
  destruct (item parts 2); [| discriminate].
  destruct (item parts 3); [| discriminate].
  destruct (item parts 4); [| discriminate].
  destruct (Py.int s); [| discriminate].
  destruct (hunk_len s0); [| discriminate].
  destruct (Py.int s1); [| discriminate].
  destruct (hunk_len s2); [| discriminate].
  injection E as <-. now repeat split.
Qed.

(** X4.  A hunk that no view has shown yet cannot be merged: on the hunk
    as the constructor returns it, [merge] raises in every direction
    (the text attribute is not there), whatever the editor does. *)
Theorem merge_before_show_raises (parts : list string) (h : t)
    (view : View) (edit : Edit) (d : string) :
  init parts = Some h ->
  merge replace h view edit d = None.
Proof.
  intros E. destruct (init_fresh parts h E) as (_ & _ & Fo & Fn).
  unfold merge. rewrite Fo, Fn.
  now destruct (String.eqb d "right").
Qed.

(** X5.  Once the old view and the new view have asked a new hunk for
    its regions, the hunk holds the two full regions and their texts as
    the views had them, and nothing else of it has changed; so [merge]
    returns in both directions if [view.replace] does. *)
Theorem shown_hunk_merges (parts : list string) (h : t)
    (old_view new_view view : View) (edit : Edit) (d : string) :
  init parts = Some h ->
  Spec.replace_returns replace ->
  let h1 := fst (get_old_regions text_point substr region_bool h old_view) in
  let h2 := fst (get_new_regions text_point substr region_bool h1 new_view) in
  let ro :=
    Props.full_region text_point old_view
      (old_line_start h) (old_hunk_len h) in
  let rn :=
    Props.full_region text_point new_view
      (new_line_start h) (new_hunk_len h) in
  h2 = set_full_new (set_full_old h ro (substr old_view ro))
         rn (substr new_view rn)
  /\ Spec.captured h2
  /\ exists v', merge replace h2 view edit d
                = Some (v', set_merge_state h2
                              (if String.eqb d "right"
                               then MERGED_RIGHT else MERGED_LEFT)).
Proof.
  intros E R.
  destruct (init_fresh parts h E) as (Fo & Fn & To & Tn).
  apply init_inv in E. cbv zeta in E.
  destruct E as (_ & _ & _ & _ & _ & _ & _ & _ & _ & St).
  cbv zeta. unfold get_old_regions, get_new_regions. cbn [fst].
  rewrite Fo. cbn [region_unset].
  cbn [full_new_region set_full_old]. rewrite Fn. cbn [region_unset].
  cbn [new_line_start new_hunk_len set_full_old].
  unfold Props.full_region.
  split; [reflexivity |].
  split; [repeat split; discriminate |].
  match goal with |- exists v', merge replace ?H _ _ _ = _ =>
    assert (C : Spec.captured H) by (repeat split; discriminate);
    destruct (merge_returns View Edit replace H view edit d C R) as [v' M];
    exists v'; rewrite M end.
  cbn [merge_state set_full_new set_full_old]. rewrite St.
  now destruct (String.eqb d "right").
Qed.

(** X6.  The captured text is kept: when a view asks again for the
    regions of a hunk whose full region is set and true, the hunk does
    not change, whatever the view holds by then; when the full region is
    unset or false (an empty region), region and text are taken anew
    from the view that asks.  In both cases the call returns one editor
    region for each region of the hunk, in their order. *)
Theorem old_capture_is_kept (h : t) (v1 v2 : View) :
  let h1 := fst (get_old_regions text_point substr region_bool h v1) in
  let r1 :=
    Props.full_region text_point v1 (old_line_start h) (old_hunk_len h) in
  let r2 :=
    Props.full_region text_point v2 (old_line_start h) (old_hunk_len h) in
  region_unset region_bool (full_old_region h) = true ->
  full_old_text h1 = Some (substr v1 r1)
  /\ snd (get_old_regions text_point substr region_bool h1 v2)
     = map (view_region text_point v2) (old_regions h)
  /\ (region_bool r1 = true ->
      fst (get_old_regions text_point substr region_bool h1 v2) = h1)
  /\ (region_bool r1 = false ->
      full_old_text
        (fst (get_old_regions text_point substr region_bool h1 v2))
      = Some (substr v2 r2)).
Proof.
  cbv zeta. intros U. unfold get_old_regions. cbn [fst snd].
  rewrite U. cbn [full_old_region full_old_text set_full_old region_unset
                  old_line_start old_hunk_len old_regions].
  unfold Props.full_region.
  split; [reflexivity |].
  split.
  - now destruct (negb _).
  - split; intros ->; reflexivity.
Qed.

End Merging.

Lemma valid_merge_keeps_enum_witness :
  HunkDiff.merge_valid Demo.hunk "right" = true
  /\ HunkDiff.merge Demo.replace Demo.hunk Demo.new_view tt "right"
     = Some (Demo.old_view, Demo.merged_right)
  /\ Spec.in_enum (HunkDiff.merge_state Demo.merged_right).
Proof.
  split; [reflexivity |]. split; [reflexivity |].
  exact (proj1 (valid_merge_keeps_enum Demo.View Demo.Edit Demo.replace
                  Demo.hunk Demo.merged_right Demo.new_view Demo.old_view
                  tt "right" (or_introl eq_refl) eq_refl eq_refl)).
Defined.

Lemma merge_then_opposite_witness :
  exists v2 h2,
    HunkDiff.merge Demo.replace Demo.hunk Demo.new_view tt "right"
    = Some (Demo.old_view, Demo.merged_right)
    /\ HunkDiff.merge Demo.replace Demo.merged_right Demo.old_view tt "left"
       = Some (v2, h2)
    /\ h2 = Demo.hunk.
Proof.
  eexists _, _. split; [reflexivity |]. split; [reflexivity |].
  exact (merge_then_opposite Demo.View Demo.Edit Demo.replace
           Demo.hunk Demo.merged_right _ Demo.new_view Demo.old_view _
           tt "right" (or_introl eq_refl) eq_refl eq_refl).
Defined.

Lemma other_direction_is_left_witness :
  HunkDiff.merge Demo.replace Demo.hunk Demo.new_view tt "up"
  = HunkDiff.merge Demo.replace Demo.hunk Demo.new_view tt "left"
  /\ HunkDiff.merge_valid Demo.hunk "up" = true.
Proof.
  pose proof (other_direction_is_left Demo.View Demo.Edit Demo.replace
                Demo.hunk Demo.new_view tt "up") as H.
  assert (N : "up" <> "right") by discriminate.
  destruct (H N) as (E & _ & V).
  split; [exact E |]. rewrite V; [reflexivity | discriminate].
Defined.

Lemma merge_before_show_raises_witness :
  exists h,
    HunkDiff.init Demo.parts = Some h
    /\ HunkDiff.merge Demo.replace h Demo.new_view tt "right" = None.
Proof.
  eexists. split; [reflexivity |].
  exact (merge_before_show_raises Demo.View Demo.Edit Demo.replace
           Demo.parts _ Demo.new_view tt "right" eq_refl).
Defined.

Lemma shown_hunk_merges_witness :
  exists h,
    HunkDiff.init Demo.parts = Some h
    /\ Spec.replace_returns Demo.replace
    /\ Spec.captured
         (fst (HunkDiff.get_new_regions Demo.text_point Demo.substr
                 Demo.region_bool
                 (fst (HunkDiff.get_old_regions Demo.text_point Demo.substr
                         Demo.region_bool h Demo.old_view))
                 Demo.new_view)).
Proof.
  eexists. split; [reflexivity |]. split; [exact demo_replace_returns |].
  exact (proj1 (proj2
           (shown_hunk_merges Demo.View Demo.Edit Demo.text_point
              Demo.substr Demo.replace Demo.region_bool
              Demo.parts _ Demo.old_view Demo.new_view Demo.new_view tt
              "right" eq_refl demo_replace_returns))).
Defined.

Lemma old_capture_is_kept_witness :
  HunkDiff.region_unset Demo.region_bool
    (HunkDiff.full_old_region Props.demo_parsed) = true
  /\ HunkDiff.full_old_text
       (fst (HunkDiff.get_old_regions Demo.text_point Demo.substr
               Demo.region_bool Props.demo_parsed Demo.old_view))
     = Some (Demo.join ["b"]).
Proof.
  split; [reflexivity |].
  exact (proj1 (old_capture_is_kept Demo.View Demo.text_point Demo.substr
                  Demo.region_bool Props.demo_parsed Demo.old_view
                  Demo.new_view eq_refl)).
Defined.

(** ** The regions of a hunk *)

Section Regions.

Import HunkDiff.

Section OneSide.

Variables tag p other : string.
Hypothesis p_not_other :
  forall l, Py.startswith l p = true -> Py.startswith l other = false.

Lemma run_len_nonneg (lines : list string) : 0 <= Spec.run_len p lines.
Proof.
  induction lines as [| l tl IH]; cbn [Spec.run_len]; [lia |].
  destruct (Py.startswith l p); lia.
Qed.

Lemma side_lines_nonneg (lines : list string) :
  0 <= Spec.side_lines other lines.
Proof.
  induction lines as [| l tl IH]; cbn [Spec.side_lines]; [lia |].
  destruct (Py.startswith l other); lia.
Qed.

Lemma ordered_weaken (lo lo' hi : Z) (rs : list DiffRegion) :
  lo <= lo' -> Props.ordered_from lo' rs hi -> Props.ordered_from lo rs hi.
Proof.
  intros L. destruct rs as [| r rs]; cbn [Props.ordered_from].
  - lia.
  - intros (A & B & C). repeat split; [lia | exact B | exact C].
Qed.

Lemma ordered_eq (lo lo' hi hi' : Z) (rs : list DiffRegion) :
  lo = lo' -> hi = hi' ->
  Props.ordered_from lo' rs hi' -> Props.ordered_from lo rs hi.
Proof. now intros -> ->. Qed.

Lemma runs_ordered (lines : list string) (prev : bool) (cur : Z) :
  Props.ordered_from
    (cur + (if prev then Spec.run_len p lines else 0))
    (Spec.runs tag p other prev cur lines)
    (cur + Spec.side_lines other lines).
Proof.
  revert prev cur. induction lines as [| l tl IH]; intros prev cur.
  - cbn. destruct prev; lia.
  - cbn [Spec.runs Spec.run_len Spec.side_lines].
    pose proof (run_len_nonneg tl) as Rn.
    destruct (Py.startswith l p) eqn:P.
    + rewrite (p_not_other l P).
      specialize (IH true (cur + 1)).
      destruct prev; cbn [andb negb app Props.ordered_from
                          start_line end_line].
      * refine (ordered_eq _ _ _ _ _ _ _ IH); lia.
      * split; [lia | split; [lia |]].
        refine (ordered_eq _ _ _ _ _ _ _ IH); lia.
    + cbn [andb app].
      specialize (IH false (if Py.startswith l other then cur else cur + 1)).
      apply ordered_weaken
        with (lo' := (if Py.startswith l other then cur else cur + 1) + 0).
      * destruct prev; destruct (Py.startswith l other); lia.
      * refine (ordered_eq _ _ _ _ _ eq_refl _ IH).
        destruct (Py.startswith l other); lia.
Qed.

Lemma runs_whole_lines (lines : list string) (prev : bool) (cur : Z) :
  Forall (Props.whole_lines tag) (Spec.runs tag p other prev cur lines).
Proof.
  revert prev cur. induction lines as [| l tl IH]; intros prev cur.
  - constructor.
  - cbn [Spec.runs]. apply Forall_app. split; [| apply IH].
    destruct (Py.startswith l p && negb prev); constructor.
    + now repeat split.
    + constructor.
Qed.

Lemma runs_span (lines : list string) (prev : bool) (cur : Z) :
  Props.span_total (Spec.runs tag p other prev cur lines)
  + (if prev then Spec.run_len p lines else 0)
  = Spec.count_lines p lines.
Proof.
  revert prev cur. induction lines as [| l tl IH]; intros prev cur.
  - cbn. now destruct prev.
  - cbn [Spec.runs Spec.run_len Spec.count_lines].
    destruct (Py.startswith l p) eqn:P.
    + specialize (IH true (if Py.startswith l other then cur else cur + 1)).
      cbv iota in IH.
      destruct prev; cbn [andb negb app Props.span_total
                          start_line end_line]; lia.
    + specialize (IH false (if Py.startswith l other then cur else cur + 1)).
      cbv iota in IH.
      cbn [andb app]. destruct prev; lia.
Qed.

Lemma ordered_span_nonneg (lo hi : Z) (rs : list DiffRegion) :
  Props.ordered_from lo rs hi -> 0 <= Props.span_total rs.
Proof.
  revert lo. induction rs as [| r rs IH]; intros lo; cbn; [lia |].
  intros (_ & B & C). specialize (IH _ C). lia.
Qed.

Lemma ordered_span_zero (lo hi : Z) (rs : list DiffRegion) :
  Props.ordered_from lo rs hi -> Props.span_total rs = 0 -> rs = [].
Proof.
  destruct rs as [| r rs]; [reflexivity |]. cbn.
  intros (_ & B & C) Z0. pose proof (ordered_span_nonneg _ _ _ C). lia.
Qed.

(** The first region of a side starts at the first line with the prefix
    of the side, when the lines before it are blank-prefixed. *)
Lemma runs_first (lines : list string) (l : string) (o n cur : Z) :
  (forall x, Py.startswith x " " = true ->
             Py.startswith x p = false /\ Py.startswith x other = false) ->
  Props.first_nonblank lines = Some l ->
  Py.startswith l p = true ->
  exists r rs i,
    Spec.runs tag p other false cur lines = r :: rs
    /\ start_line r = cur + i
    /\ Spec.first_change o n lines = (o + i, n + i).
Proof.
  intros B. revert o n cur.
  induction lines as [| x tl IH]; intros o n cur F P; [discriminate |].
  cbn [Props.first_nonblank] in F.
  cbn [Spec.runs Spec.first_change].
  destruct (Py.startswith x " ") eqn:Bx.
  - destruct (B x Bx) as [Np No]. rewrite Np, No. cbn [andb app].
    destruct (IH (o + 1) (n + 1) (cur + 1) F P) as (r & rs & i & E & S & C).
    exists r, rs, (1 + i). split; [exact E |].
    split; [lia |]. rewrite C. f_equal; lia.
  - injection F as ->. rewrite P. cbn [andb negb app].
    eexists _, _, 0. split; [reflexivity |].
    cbn [start_line]. split; [lia |]. now rewrite !Z.add_0_r.
Qed.

End OneSide.

Lemma blank_plus_minus (x : string) :
  Py.startswith x " " = true ->
  Py.startswith x "+" = false /\ Py.startswith x "-" = false.
Proof. intros B. split; [now apply blank_not_plus | now apply blank_not_minus]. Qed.

Lemma blank_minus_plus (x : string) :
  Py.startswith x " " = true ->
  Py.startswith x "-" = false /\ Py.startswith x "+" = false.
Proof. intros B. split; [now apply blank_not_minus | now apply blank_not_plus]. Qed.

Lemma parse_new_regions (o n : Z) (lines : list string) :
  l_new_regions (parse_diff o n lines) = Spec.runs "ADD" "+" "-" false n lines.
Proof. unfold parse_diff. now rewrite new_regions_run. Qed.

Lemma parse_old_regions (o n : Z) (lines : list string) :
  l_old_regions (parse_diff o n lines) = Spec.runs "DEL" "-" "+" false o lines.
Proof. unfold parse_diff. now rewrite old_regions_run. Qed.

(** X7.  The regions of a side come in the order of the file and do not
    overlap: every region has at least one line, starts at or after
    the end of the region before it, and all lie between the start line
    of the hunk on that side and the line after the last body line of
    that side.  The regions of [new_regions] are ['ADD'] regions and
    those of [old_regions] are ['DEL'] regions, with both columns 0. *)
Theorem regions_in_order (old_start new_start : Z) (lines : list string) :
  let st := parse_diff old_start new_start lines in
  Props.ordered_from new_start (l_new_regions st)
    (new_start + Spec.side_lines "-" lines)
  /\ Props.ordered_from old_start (l_old_regions st)
       (old_start + Spec.side_lines "+" lines)
  /\ Forall (Props.whole_lines "ADD") (l_new_regions st)
  /\ Forall (Props.whole_lines "DEL") (l_old_regions st).
Proof.
  cbv zeta. rewrite parse_new_regions, parse_old_regions.
  split; [| split; [| split]].
  - pose proof (runs_ordered "ADD" "+" "-" plus_not_minus lines false
                  new_start) as H.
    cbv iota in H. now rewrite Z.add_0_r in H.
  - pose proof (runs_ordered "DEL" "-" "+" minus_not_plus lines false
                  old_start) as H.
    cbv iota in H. now rewrite Z.add_0_r in H.
  - apply runs_whole_lines.
  - apply runs_whole_lines.
Qed.

(** X8.  The regions account for the counted lines: the lines spanned by
    the regions of [new_regions] are [add_lines] in number, and those
    spanned by the regions of [old_regions] are [del_lines]. *)
Theorem regions_span_counts (old_start new_start : Z)
    (lines : list string) :
  let st := parse_diff old_start new_start lines in
  Props.span_total (l_new_regions st) = l_add_lines st
  /\ Props.span_total (l_old_regions st) = l_del_lines st.
Proof.
  cbv zeta.
  rewrite parse_new_regions, parse_old_regions,
    add_lines_count, del_lines_count.
  pose proof (runs_span "ADD" "+" "-" lines false new_start) as A.
  pose proof (runs_span "DEL" "-" "+" lines false old_start) as D.
  cbv iota in A, D. split; lia.
Qed.

Lemma no_lines_no_runs (tag p other : string)
    (X : forall l, Py.startswith l p = true -> Py.startswith l other = false)
    (lines : list string) (cur : Z) :
  Spec.count_lines p lines = 0 <->
  Spec.runs tag p other false cur lines = [].
Proof.
  pose proof (runs_span tag p other lines false cur) as S.
  pose proof (runs_ordered tag p other X lines false cur) as O.
  cbv iota in S, O.
  split.
  - intros C. apply (ordered_span_zero _ _ _ O). lia.
  - intros E. rewrite E in S. cbn in S. lia.
Qed.

(** X9.  The type of a hunk tells which sides have regions: an ['ADD']
    hunk has no old region, a ['DEL'] hunk has no new region and has an
    old one, a ['MOD'] hunk has regions on both sides; and the type is
    one of the three. *)
Theorem hunk_type_and_regions (parts : list string) (h : t) :
  init parts = Some h ->
  (hunk_type h = "ADD" \/ hunk_type h = "DEL" \/ hunk_type h = "MOD")
  /\ (hunk_type h = "ADD" <-> old_regions h = [])
  /\ (hunk_type h = "DEL" <-> new_regions h = [] /\ old_regions h <> [])
  /\ (hunk_type h = "MOD" <-> new_regions h <> [] /\ old_regions h <> []).
Proof.
  intros E. apply init_inv in E. cbv zeta in E.
  destruct E as (_ & _ & Ro & Rn & _ & _ & Ea & Ed & Et & _).
  rewrite parse_old_regions in Ro. rewrite parse_new_regions in Rn.
  rewrite add_lines_count in Ea. rewrite del_lines_count in Ed.
  pose proof (no_lines_no_runs "ADD" "+" "-" plus_not_minus
                (hunk_diff_lines h) (new_line_start h)) as A.
  pose proof (no_lines_no_runs "DEL" "-" "+" minus_not_plus
                (hunk_diff_lines h) (old_line_start h)) as D.
  rewrite <- Rn, <- Ea in A. rewrite <- Ro, <- Ed in D.
  rewrite Et. unfold classify.
  destruct (Z.eqb_spec (del_lines h) 0) as [D0 | D0];
    [| destruct (Z.eqb_spec (add_lines h) 0) as [A0 | A0]].
  - split; [now left |].
    split; [split; [intros _; now apply D | reflexivity] |].
    split; (split; [discriminate |]); intros (_ & N); apply D in D0;
      contradiction.
  - split; [right; now left |].
    split; [split; [discriminate | intros O; apply D in O; contradiction] |].
    split.
    + split; [intros _ | reflexivity].
      split; [now apply A | intros O; apply D in O; contradiction].
    + split; [discriminate |]. intros (N & _). apply A in A0. contradiction.
  - split; [right; now right |].
    split; [split; [discriminate | intros O; apply D in O; contradiction] |].
    split.
    + split; [discriminate |]. intros (N & _). apply A in N. contradiction.
    + split; [intros _ | reflexivity].
      split; intros O; [apply A in O | apply D in O]; contradiction.
Qed.

(** X10.  The focus is where the first region starts: when the first
    body line that does not start with a blank starts with [+], the
    first region of [new_regions] starts at [new_line_focus]; when it
    starts with [-], the first region of [old_regions] starts at
    [old_line_focus]. *)
Theorem focus_is_first_region (parts : list string) (h : t) (l : string) :
  init parts = Some h ->
  Props.first_nonblank (hunk_diff_lines h) = Some l ->
  (Py.startswith l "+" = true ->
   exists r rs, new_regions h = r :: rs /\ start_line r = new_line_focus h)
  /\ (Py.startswith l "-" = true ->
      exists r rs, old_regions h = r :: rs
                   /\ start_line r = old_line_focus h).
Proof.
  intros E F. apply init_inv in E. cbv zeta in E.
  destruct E as (Co & Cn & Ro & Rn & Fo & Fn & _).
  rewrite parse_old_regions in Ro. rewrite parse_new_regions in Rn.
  unfold parse_diff in Fo, Fn.
  pose proof (focus_run (hunk_diff_lines h)
                (loop_init (old_line_start h) (new_line_start h))
                eq_refl eq_refl Co Cn) as FC.
  cbn [old_cur_line new_cur_line loop_init] in FC.
  rewrite <- Fo, <- Fn in FC.
  split; intros P.
  - destruct (runs_first "ADD" "+" "-" (hunk_diff_lines h) l
                (old_line_start h) (new_line_start h) (new_line_start h)
                blank_plus_minus F P) as (r & rs & i & E & S & C).
    exists r, rs. rewrite Rn. split; [exact E |].
    rewrite C in FC. injection FC as _ ->. exact S.
  - destruct (runs_first "DEL" "-" "+" (hunk_diff_lines h) l
                (old_line_start h) (new_line_start h) (old_line_start h)
                blank_minus_plus F P) as (r & rs & i & E & S & C).
    exists r, rs. rewrite Ro. split; [exact E |].
    rewrite C in FC. injection FC as -> _. exact S.
Qed.

End Regions.

Lemma hunk_type_and_regions_witness :
  HunkDiff.init Demo.parts = Some Props.demo_parsed
  /\ (HunkDiff.hunk_type Props.demo_parsed = "MOD" <->
      HunkDiff.new_regions Props.demo_parsed <> []
      /\ HunkDiff.old_regions Props.demo_parsed <> []).
Proof.
  split; [reflexivity |].
  exact (proj2 (proj2 (proj2
           (hunk_type_and_regions Demo.parts Props.demo_parsed eq_refl)))).
Defined.

Lemma focus_is_first_region_witness :
  HunkDiff.init Demo.short_parts = Some Props.demo_short
  /\ Props.first_nonblank (HunkDiff.hunk_diff_lines Props.demo_short)
     = Some "+added"
  /\ exists r rs,
      HunkDiff.new_regions Props.demo_short = r :: rs
      /\ start_line r = HunkDiff.new_line_focus Props.demo_short.
Proof.
  split; [reflexivity |]. split; [reflexivity |].
  exact (proj1 (focus_is_first_region Demo.short_parts Props.demo_short
                  "+added" eq_refl eq_refl) eq_refl).
Defined.

(** ** The text after a header *)

Section BodyLines.

Import HunkDiff.

Lemma newline_split_line (s rest : string) :
  Spec.line_end_free s = true ->
  Py.newline_split (s +++ String Py.LF rest) = s :: Py.newline_split rest.
Proof.
  induction s as [| c s IH]; intros F.
  - reflexivity.
  - cbn [Spec.line_end_free] in F.
    apply andb_true_iff in F. destruct F as [F Fs].
    apply andb_true_iff in F. destruct F as [Fl Fr].
    apply negb_true_iff in Fl, Fr.
    cbn [String.append Py.newline_split]. rewrite Fl, Fr, (IH Fs).
    reflexivity.
Qed.

Lemma newline_split_last (s : string) :
  Spec.line_end_free s = true -> Py.newline_split s = [s].
Proof.
  induction s as [| c s IH]; intros F.
  - reflexivity.
  - cbn [Spec.line_end_free] in F.
    apply andb_true_iff in F. destruct F as [F Fs].
    apply andb_true_iff in F. destruct F as [Fl Fr].
    apply negb_true_iff in Fl, Fr.
    cbn [Py.newline_split]. rewrite Fl, Fr, (IH Fs). reflexivity.
Qed.

Lemma newline_split_text (l : string) (lines : list string) :
  forallb Spec.line_end_free (l :: lines) = true ->
  Py.newline_split (Demo.text (l :: lines)) = l :: lines.
Proof.
  revert l. induction lines as [| x tl IH]; intros l F.
  - cbn [forallb] in F. rewrite andb_true_r in F.
    now apply newline_split_last.
  - cbn [forallb] in F. apply andb_true_iff in F. destruct F as [Fl Ft].
    change (Demo.text (l :: x :: tl))
      with (l +++ String Py.LF (Demo.text (x :: tl))).
    rewrite (newline_split_line _ _ Fl). f_equal. now apply IH.
Qed.

(** X11.  The text after a header is cut at its line ends: when it is
    made of lines without CR or LF, joined by LF, the hunk has the first
    of them as its [context] and the others, in their order, as its
    [hunk_diff_lines]. *)
Theorem body_lines_round_trip (a b c d ctx : string) (lines : list string)
    (h : t) :
  forallb Spec.line_end_free (ctx :: lines) = true ->
  init [a; b; c; d; Demo.text (ctx :: lines)] = Some h ->
  context h = ctx /\ hunk_diff_lines h = lines.
Proof.
  intros F. unfold init. cbn [item nth_error].
  destruct (Py.int a); [| discriminate].
  destruct (hunk_len b); [| discriminate].
  destruct (Py.int c); [| discriminate].
  destruct (hunk_len d); [| discriminate].
  rewrite (newline_split_text ctx lines F).
  intros E. injection E as <-. now split.
Qed.

End BodyLines.

Lemma body_lines_round_trip_witness :
  forallb Spec.line_end_free ["ctx"; "+added"] = true
  /\ HunkDiff.init ["5"; ""; "5"; "2"; Demo.text ["ctx"; "+added"]]
     = Some Props.demo_short
  /\ HunkDiff.context Props.demo_short = "ctx"
  /\ HunkDiff.hunk_diff_lines Props.demo_short = ["+added"].
Proof.
  split; [reflexivity |]. split; [reflexivity |].
  exact (body_lines_round_trip "5" "" "5" "2" "ctx" ["+added"]
           Props.demo_short eq_refl eq_refl).
Defined.

(** ** Asking a file for its hunks *)

Section AskingHunks.

Import FileDiff.

Lemma build_hunks_shape (pieces : list string) :
  Spec.pieces_ok pieces ->
  forall acc, exists hs,
    build_hunks acc (tl pieces) = Some (acc ++ hs)
    /\ Forall Props.is_hunk hs
    /\ List.length pieces = (5 * List.length hs + 1)%nat.
Proof.
  induction 1 as [piece | piece g1 g2 g3 g4 rest N1 N3 D1 D2 D3 D4 R IH];
    intros acc.
  - exists []. rewrite app_nil_r. now repeat split.
  - cbn [tl].
    assert (X : exists body rest', rest = body :: rest').
    { destruct R; now eexists _, _. }
    destruct X as (body & rest' & ->).
    cbn [build_hunks].
    destruct (hunk_init_some g1 g2 g3 g4 body N1 N3 D1 D2 D3 D4) as [h ->].
    destruct (IH (acc ++ [Hunk h])) as (hs & B & F & L).
    cbn [tl] in B. exists (Hunk h :: hs).
    rewrite B, <- app_assoc. split; [reflexivity |].
    split; [constructor; [exact I | exact F] |].
    cbn [List.length] in L |- *. lia.
Qed.

(** X13.  On a new object, [get_hunks(True)] returns the hunks that
    [get_hunks(False)] returns, with one dummy hunk in front that holds
    their number; the hunks are real hunks, one for every five pieces
    of the split after its first piece, so that no piece is left
    over. *)
Theorem dummy_counts_the_hunks (filename abs_filename text : string) :
  exists fd0 fd1 hs,
    get_hunks (init filename abs_filename text) false = Some (fd0, hs)
    /\ get_hunks (init filename abs_filename text) true
       = Some (fd1, DummyHunk (Z.of_nat (List.length hs)) :: hs)
    /\ Forall Props.is_hunk hs
    /\ List.length (hunk_split text) = (5 * List.length hs + 1)%nat.
Proof.
  unfold get_hunks, parse_diff. cbn [hunks init diff_text].
  unfold hunk_split.
  pose proof (split_from_ok text O EmptyString) as K.
  destruct (build_hunks_shape _ K []) as (hs & B & F & L).
  destruct K as [piece | piece g1 g2 g3 g4 rest];
    cbn [tl] in B; rewrite B; cbn [app hunks set_hunks];
    eexists _, _, hs; repeat split; try exact F; exact L.
Qed.

(** X14.  Once a call has returned a list that is not empty, every
    later call returns that list, whatever its argument, and the object
    is not touched: the text is not parsed again and a dummy hunk is
    neither added nor taken away. *)
Theorem later_calls_return_first_list (fd fd1 : t) (a : bool)
    (r : list entry) (args : list bool) :
  get_hunks fd a = Some (fd1, r) ->
  r <> [] ->
  get_hunks_calls fd1 args = Some (fd1, map (fun _ => r) args)
  /\ Forall (fun b => get_hunks fd1 b = Some (fd1, r)) args.
Proof.
  intros E N.
  split; [exact (get_hunks_once_nonempty fd fd1 a r args E N) |].
  apply Forall_forall. intros b _.
  pose proof (get_hunks_once_nonempty fd fd1 a r [b] E N) as H.
  cbn [get_hunks_calls map] in H.
  destruct (get_hunks fd1 b) as [[fd2 r2] |]; [| discriminate].
  now injection H as -> ->.
Qed.

End AskingHunks.

Lemma later_calls_return_first_list_witness :
  exists fd1 h,
    FileDiff.get_hunks (FileDiff.init "f" "/f" Demo.short_text) false
    = Some (fd1, [FileDiff.Hunk h])
    /\ FileDiff.get_hunks_calls fd1 [true; false]
       = Some (fd1, [[FileDiff.Hunk h]; [FileDiff.Hunk h]]).
Proof.
  eexists _, _. split; [reflexivity |].
  refine (proj1 (later_calls_return_first_list
                   (FileDiff.init "f" "/f" Demo.short_text) _ false _
                   [true; false] eq_refl _)).
  discriminate.
Defined.

(** ** A diff with several hunks *)

Section SeveralHunks.

Import FileDiff.

(** What the matcher does before a line end does not depend on what
    comes after the line end. *)

Lemma strip_prefix_local (p x T : string) :
  Spec.line_end_free p = true ->
  strip_prefix p (x +++ String Py.LF T)
  = option_map (fun r => r +++ String Py.LF T) (strip_prefix p x).
Proof.
  revert x. induction p as [| a p IH]; intros x F; [reflexivity |].
  cbn [Spec.line_end_free] in F.
  apply andb_true_iff in F. destruct F as [F Fp].
  apply andb_true_iff in F. destruct F as [Fl _].
  apply negb_true_iff in Fl.
  destruct x as [| b x]; cbn [String.append strip_prefix].
  - now rewrite Fl.
  - destruct (Ascii.eqb a b); [now apply IH | reflexivity].
Qed.

Lemma span_digits_local (x T : string) :
  span_digits (x +++ String Py.LF T)
  = (fst (span_digits x), snd (span_digits x) +++ String Py.LF T).
Proof.
  induction x as [| c x IH]; [reflexivity |].
  cbn [String.append span_digits]. rewrite IH.
  destruct (Py.is_digit c); [| reflexivity].
  now destruct (span_digits x).
Qed.

Lemma opt_char_local (c : ascii) (x T : string) :
  Ascii.eqb Py.LF c = false ->
  opt_char c (x +++ String Py.LF T) = opt_char c x +++ String Py.LF T.
Proof.
  intros N. destruct x as [| b x]; cbn [String.append opt_char].
  - now rewrite N.
  - now destruct (Ascii.eqb b c).
Qed.

Lemma range_local (x T : string) :
  range (x +++ String Py.LF T)
  = option_map (fun m => (fst (fst m), snd (fst m), snd m +++ String Py.LF T))
      (range x).
Proof.
  unfold range. rewrite span_digits_local.
  destruct (span_digits x) as [start s1]. cbn [fst snd].
  destruct start as [| a start]; [reflexivity |].
  rewrite opt_char_local by reflexivity.
  rewrite span_digits_local.
  now destruct (span_digits (opt_char "," s1)).
Qed.

Lemma strip_prefix_cons (a b : ascii) (p x : string) :
  strip_prefix (String a p) (String b x)
  = if Ascii.eqb a b then strip_prefix p x else None.
Proof. reflexivity. Qed.

Lemma match_header_local (x T : string) :
  x <> EmptyString -> x <> String Py.CR EmptyString ->
  match_header x = None ->
  match_header (x +++ String Py.LF T) = None.
Proof.
  intros N0 N1. unfold match_header.
  assert (E : strip_prefix (String Py.LF "@@ -")
                (opt_char Py.CR (x +++ String Py.LF T))
              = option_map (fun r => r +++ String Py.LF T)
                  (strip_prefix (String Py.LF "@@ -") (opt_char Py.CR x))).
  { destruct x as [| c x]; [contradiction |].
    cbn [String.append opt_char].
    destruct (Ascii.eqb_spec c Py.CR) as [-> | Nc].
    - destruct x as [| b x]; [contradiction |].
      cbn [String.append]. rewrite !strip_prefix_cons.
      destruct (Ascii.eqb Py.LF b); [| reflexivity].
      now apply strip_prefix_local.
    - cbn [String.append]. rewrite !strip_prefix_cons.
      destruct (Ascii.eqb Py.LF c); [| reflexivity].
      now apply strip_prefix_local. }
  rewrite E.
  destruct (strip_prefix (String Py.LF "@@ -") (opt_char Py.CR x))
    as [s1 |]; [| reflexivity].
  cbn [option_map]. rewrite range_local.
  destruct (range s1) as [[[g1 g2] s2] |]; [| reflexivity].
  cbn [option_map fst snd].
  rewrite strip_prefix_local by reflexivity.
  destruct (strip_prefix " +" s2) as [s3 |]; [| reflexivity].
  cbn [option_map]. rewrite range_local.
  destruct (range s3) as [[[g3 g4] s4] |]; [| reflexivity].
  cbn [option_map fst snd].
  rewrite strip_prefix_local by reflexivity.
  destruct (strip_prefix " @@" s4); [discriminate | reflexivity].
Qed.

Lemma ends_cr_cons (c : ascii) (s : string) :
  Props.ends_cr (String c s) = false ->
  String c s <> String Py.CR EmptyString /\ Props.ends_cr s = false.
Proof.
  cbn [Props.ends_cr]. destruct s as [| b s]; intros H.
  - split; [| reflexivity]. intros E. injection E as ->. discriminate.
  - split; [discriminate | exact H].
Qed.

(** A text without header, in front of a line end, goes to the piece
    that is being collected. *)
Lemma split_from_pre (pre cur T : string) :
  Spec.has_header pre = false ->
  Props.ends_cr pre = false ->
  split_from O cur (pre +++ String Py.LF T)
  = split_from O (cur +++ pre) (String Py.LF T).
Proof.
  revert cur. induction pre as [| c pre IH]; intros cur H C.
  - now rewrite append_nil_r.
  - rewrite has_header_cons in H.
    destruct (match_header (String c pre)) eqn:M; [discriminate |].
    destruct (ends_cr_cons c pre C) as [N1 C'].
    pose proof (match_header_local (String c pre) T
                  ltac:(discriminate) N1 M) as L.
    change (String c pre +++ String Py.LF T)
      with (String c (pre +++ String Py.LF T)) in L |- *.
    cbn [split_from]. rewrite L.
    rewrite (IH _ H C'). now rewrite append_char_assoc.
Qed.

Lemma split_from_chunk (pre cur a b c d rest : string) :
  Spec.has_header pre = false ->
  Props.ends_cr pre = false ->
  a <> EmptyString -> c <> EmptyString ->
  Py.all_digits a = true -> Py.all_digits b = true ->
  Py.all_digits c = true -> Py.all_digits d = true ->
  split_from O cur
    (pre +++ String Py.LF (Spec.header_line a b c d +++ rest))
  = (cur +++ pre) :: a :: b :: c :: d :: split_from O EmptyString rest.
Proof.
  intros H C Na Nc A B Cd D.
  rewrite (split_from_pre pre cur _ H C).
  cbn [split_from].
  rewrite (match_header_line a b c d rest Na Nc A B Cd D).
  now rewrite length_append, Nat.add_sub, split_from_skip.
Qed.

Lemma hunk_split_diff_of (chunks : list Props.chunk) (pre : string) :
  Spec.has_header pre = false ->
  Props.ends_cr pre = false ->
  Forall Props.chunk_ok chunks ->
  hunk_split (Props.diff_of pre chunks) = pre :: Props.flat chunks.
Proof.
  intros H C F. revert pre H C.
  induction F as [| ch chs (Na & Nc & A & B & Cd & D & Hb & Cb) F IH];
    intros pre H C.
  - cbn [Props.diff_of Props.flat]. unfold hunk_split.
    now rewrite (split_no_header pre EmptyString H).
  - cbn [Props.diff_of Props.flat]. unfold hunk_split.
    rewrite (split_from_chunk pre EmptyString _ _ _ _ _ H C Na Nc A B Cd D).
    cbn [String.append]. do 5 f_equal.
    apply IH; [now apply has_header_false | exact Cb].
Qed.

Lemma build_hunks_flat (chunks : list Props.chunk) (acc : list entry) :
  Forall Props.chunk_ok chunks ->
  exists hs,
    build_hunks acc (Props.flat chunks) = Some (acc ++ map Hunk hs)
    /\ map Props.chunk_hunk chunks = map Some hs.
Proof.
  intros F. revert acc.
  induction F as [| ch chs (Na & Nc & A & B & Cd & D & _) F IH]; intros acc.
  - exists []. now rewrite app_nil_r.
  - cbn [Props.flat build_hunks map].
    destruct (hunk_init_some _ _ _ _ (Props.c_body ch) Na Nc A B Cd D)
      as [h E].
    rewrite E. destruct (IH (acc ++ [Hunk h])) as (hs & Bh & M).
    exists (h :: hs). rewrite Bh, <- app_assoc. split; [reflexivity |].
    cbn [map]. unfold Props.chunk_hunk at 1. now rewrite E, M.
Qed.

(** X15.  A diff text made of a preamble and any number of hunks, each a
    line end, a header [@@ -a,b +c,d @@] and a text without header,
    gives one hunk for each of them, in their order, and each hunk is
    built from the numbers of its own header and from its own text. *)
Theorem hunks_follow_the_headers (filename abs_filename pre : string)
    (chunks : list Props.chunk) :
  Spec.no_header pre ->
  Props.ends_cr pre = false ->
  Forall Props.chunk_ok chunks ->
  exists hs,
    map Props.chunk_hunk chunks = map Some hs
    /\ option_map snd
         (get_hunks
            (init filename abs_filename (Props.diff_of pre chunks)) false)
       = Some (map Hunk hs).
Proof.
  intros H C F. apply has_header_false in H.
  destruct (build_hunks_flat chunks [] F) as (hs & B & M).
  exists hs. split; [exact M |].
  unfold get_hunks, parse_diff. cbn [hunks init diff_text].
  rewrite (hunk_split_diff_of chunks pre H C F), B.
  cbn [app set_hunks hunks option_map snd].
  now destruct (map Hunk hs).
Qed.

End SeveralHunks.

Lemma demo_chunks_ok : Forall Props.chunk_ok Props.demo_chunks.
Proof.
  repeat constructor; try discriminate; now apply has_header_false.
Qed.

Lemma demo_preamble_no_header : Spec.no_header Demo.no_hunk_text.
Proof. now apply has_header_false. Qed.

Lemma hunks_follow_the_headers_witness :
  Spec.no_header Demo.no_hunk_text
  /\ Props.ends_cr Demo.no_hunk_text = false
  /\ Forall Props.chunk_ok Props.demo_chunks
  /\ exists hs,
      map Props.chunk_hunk Props.demo_chunks = map Some hs
      /\ option_map snd
           (FileDiff.get_hunks
              (FileDiff.init "f" "/f"
                 (Props.diff_of Demo.no_hunk_text Props.demo_chunks)) false)
         = Some (map FileDiff.Hunk hs).
Proof.
  split; [exact demo_preamble_no_header |].
  split; [reflexivity |].
  split; [exact demo_chunks_ok |].
  exact (hunks_follow_the_headers "f" "/f" Demo.no_hunk_text
           Props.demo_chunks demo_preamble_no_header eq_refl
           demo_chunks_ok).
Defined.

(** ** A header without lengths *)

Section ShortHeader.

Import FileDiff.

Lemma range_no_comma (a t : string) :
  a <> EmptyString -> Py.all_digits a = true ->
  range (a +++ String " " t) = Some (a, EmptyString, String " " t).
Proof.
  intros N A. unfold range.
  rewrite span_digits_app; [| exact A | reflexivity].
  destruct a as [| x y]; [contradiction |]. reflexivity.
Qed.

Lemma match_short_header (a c rest : string) :
  a <> EmptyString -> c <> EmptyString ->
  Py.all_digits a = true -> Py.all_digits c = true ->
  match_header (String Py.LF (Props.short_header_line a c +++ rest))
  = Some (a, EmptyString, c, EmptyString, rest).
Proof.
  intros Na Nc A C. unfold Props.short_header_line.
  rewrite !append_assoc. unfold match_header.
  cbn [opt_char]. cbn [Ascii.eqb Bool.eqb Py.LF Py.CR].
  change (String Py.LF ("@@ -" +++ a +++ " +" +++ c +++ " @@" +++ rest))
    with (String Py.LF "@@ -" +++ a +++ " +" +++ c +++ " @@" +++ rest).
  rewrite strip_prefix_app.
  change (" +" +++ c +++ " @@" +++ rest)
    with (String " " ("+" +++ c +++ " @@" +++ rest)).
  rewrite (range_no_comma a _ Na A).
  change (String " " ("+" +++ c +++ " @@" +++ rest))
    with (" +" +++ c +++ " @@" +++ rest).
  rewrite strip_prefix_app.
  change (" @@" +++ rest) with (String " " ("@@" +++ rest)).
  rewrite (range_no_comma c _ Nc C).
  change (String " " ("@@" +++ rest)) with (" @@" +++ rest).
  now rewrite strip_prefix_app.
Qed.

(** X16.  A header that leaves out both lengths, [@@ -a +c @@], gives a
    hunk with both lengths 1, whose start lines are the numbers [a] and
    [c]. *)
Theorem short_header_lengths (filename abs_filename a c rest : string) :
  a <> EmptyString -> c <> EmptyString ->
  Py.all_digits a = true -> Py.all_digits c = true ->
  Spec.no_header rest ->
  exists h,
    option_map snd
      (get_hunks
         (init filename abs_filename
            (String Py.LF (Props.short_header_line a c +++ rest))) false)
    = Some [Hunk h]
    /\ HunkDiff.old_hunk_len h = 1
    /\ HunkDiff.new_hunk_len h = 1
    /\ Py.int a = Some (HunkDiff.old_line_start h)
    /\ Py.int c = Some (HunkDiff.new_line_start h).
Proof.
  intros Na Nc A C H. apply has_header_false in H.
  destruct (int_digits_some a Na A) as [za Ea].
  destruct (int_digits_some c Nc C) as [zc Ec].
  eexists. split.
  - unfold get_hunks, parse_diff. cbn [hunks init diff_text].
    unfold hunk_split. cbn [split_from].
    rewrite (match_short_header a c rest Na Nc A C).
    rewrite length_append, Nat.add_sub, split_from_skip.
    rewrite (split_no_header rest EmptyString H).
    cbn [String.append build_hunks]. unfold HunkDiff.init.
    cbn [HunkDiff.item nth_error]. rewrite Ea, Ec.
    cbn [HunkDiff.hunk_len Py.len String.length Z.of_nat Z.ltb Z.compare].
    reflexivity.
  - cbn [HunkDiff.old_hunk_len HunkDiff.new_hunk_len
         HunkDiff.old_line_start HunkDiff.new_line_start].
    now rewrite Ea, Ec.
Qed.

End ShortHeader.

Lemma short_header_lengths_witness :
  Spec.no_header (Demo.text ["ctx"; "+added"])
  /\ exists h,
      option_map snd
        (FileDiff.get_hunks
           (FileDiff.init "f" "/f"
              (String Py.LF (Props.short_header_line "5" "5"
                             +++ Demo.text ["ctx"; "+added"]))) false)
      = Some [FileDiff.Hunk h]
      /\ HunkDiff.old_hunk_len h = 1
      /\ HunkDiff.new_hunk_len h = 1
      /\ Py.int "5" = Some (HunkDiff.old_line_start h)
      /\ Py.int "5" = Some (HunkDiff.new_line_start h).
Proof.
  assert (N : Spec.no_header (Demo.text ["ctx"; "+added"]))
    by now apply has_header_false.
  split; [exact N |].
  refine (short_header_lengths "f" "/f" "5" "5"
            (Demo.text ["ctx"; "+added"]) _ _ eq_refl eq_refl N);
    discriminate.
Defined.

(** ** More on merging *)

Section MergeSequences.

Import HunkDiff.

Variable View : Type.
Variable Edit : Type.
Variable replace : View -> Edit -> option Region -> string -> option View.

Lemma merge_all_state (ds : list string) (h h' : t) (view view' : View)
    (edit : Edit) :
  Props.merge_all replace h view edit ds = Some (view', h') ->
  h' = set_merge_state h
         (merge_state h + 2 * Props.rights ds - Z.of_nat (List.length ds)).
Proof.
  revert h view. induction ds as [| d ds IH]; intros h view E.
  - cbn in E. injection E as _ <-. cbn [Props.rights List.length Z.of_nat].
    rewrite <- (set_merge_state_same h) at 1. f_equal. lia.
  - cbn [Props.merge_all] in E.
    destruct (merge replace h view edit d) as [[v1 h1] |] eqn:M;
      [| discriminate].
    apply merge_moves_by_one in M. apply IH in E. subst h1 h'.
    rewrite set_merge_state_twice. f_equal.
    cbn [merge_state set_merge_state Props.rights List.length].
    destruct (String.eqb d "right"); lia.
Qed.

(** X17.  [merge_state] is a counter without bounds: after any sequence
    of merges on a hunk that has been shown in both views, it is the
    state before plus the number of merges to the right minus the number
    of the other merges, and nothing else of the hunk has changed; every
    merge of the sequence returns if [view.replace] does. *)
Theorem merge_state_counts (ds : list string) (h : t) (view : View)
    (edit : Edit) :
  Spec.captured h ->
  Spec.replace_returns replace ->
  exists view',
    Props.merge_all replace h view edit ds
    = Some (view',
            set_merge_state h
              (merge_state h + 2 * Props.rights ds
               - Z.of_nat (List.length ds))).
Proof.
  intros C R.
  assert (X : exists view' h',
               Props.merge_all replace h view edit ds = Some (view', h')).
  { revert h view C. induction ds as [| d ds IH]; intros h view C.
    - now exists view, h.
    - cbn [Props.merge_all].
      destruct (merge_returns View Edit replace h view edit d C R)
        as [v1 ->].
      apply IH. exact C. }
  destruct X as (view' & h' & E). exists view'.
  now rewrite E, (merge_all_state ds h h' view view' edit E).
Qed.

(** X18.  What a merge hands to [view.replace].  On an unmerged hunk,
    [merge(d)] hands over the full region of the side [d] and the text
    of the other side.  On a hunk merged in the direction [d], the
    merge in the other direction hands over the full region of the side
    [d] and the text of that same side.  Regions and texts are those
    the hunk captured when it was shown: no merge updates them, so the
    second merge is given the region as it was before the first
    merge changed the view. *)
Theorem merge_writes (h : t) (view : View) (edit : Edit) (d : string) :
  d = "right" \/ d = "left" ->
  (merge_state h = UNMERGED ->
   merge replace h view edit d
   = Props.write replace h view edit
       (Props.side_region h d) (Props.side_text h (Props.opposite d))
       (if String.eqb d "right" then MERGED_RIGHT else MERGED_LEFT))
  /\ (merge_state h
      = (if String.eqb d "right" then MERGED_RIGHT else MERGED_LEFT) ->
      merge replace h view edit (Props.opposite d)
      = Props.write replace h view edit
          (Props.side_region h d) (Props.side_text h d) UNMERGED)
  /\ (forall d' view' h',
        merge replace h view edit d' = Some (view', h') ->
        forall side,
          Props.side_region h' side = Props.side_region h side
          /\ Props.side_text h' side = Props.side_text h side).
Proof.
  intros D. split; [| split].
  - intros St. destruct D as [-> | ->];
      cbn [String.eqb Ascii.eqb Bool.eqb] in St;
      unfold UNMERGED, MERGED_RIGHT, MERGED_LEFT in *;
      unfold merge, merge_region, merge_changing_view, Props.write,
        Props.side_region, Props.side_text, Props.opposite,
        MERGED_RIGHT, MERGED_LEFT;
      rewrite St; cbn; reflexivity.
  - intros St. destruct D as [-> | ->];
      cbn [String.eqb Ascii.eqb Bool.eqb] in St;
      unfold UNMERGED, MERGED_RIGHT, MERGED_LEFT in *;
      unfold merge, merge_region, merge_changing_view, Props.write,
        Props.side_region, Props.side_text, Props.opposite,
        MERGED_RIGHT, MERGED_LEFT;
      rewrite St; cbn; reflexivity.
  - intros d' view' h' E side. apply merge_moves_by_one in E. subst h'.
    now split.
Qed.

End MergeSequences.

Lemma merge_state_counts_witness :
  Spec.captured Demo.hunk
  /\ Spec.replace_returns Demo.replace
  /\ exists view',
      Props.merge_all Demo.replace Demo.hunk Demo.new_view tt
        ["right"; "right"; "right"]
      = Some (view', HunkDiff.set_merge_state Demo.hunk 3).
Proof.
  split; [exact demo_hunk_captured |].
  split; [exact demo_replace_returns |].
  exact (merge_state_counts Demo.View Demo.Edit Demo.replace
           ["right"; "right"; "right"] Demo.hunk Demo.new_view tt
           demo_hunk_captured demo_replace_returns).
Defined.

Lemma merge_writes_witness :
  HunkDiff.merge_state Demo.merged_right = HunkDiff.MERGED_RIGHT
  /\ HunkDiff.merge Demo.replace Demo.merged_right Demo.old_view tt "left"
     = Props.write Demo.replace Demo.merged_right Demo.old_view tt
         (Props.side_region Demo.merged_right "right")
         (Props.side_text Demo.merged_right "right") HunkDiff.UNMERGED
  /\ Props.side_region Demo.merged_right "right"
     = Props.side_region Demo.hunk "right".
Proof.
  split; [reflexivity |].
  pose proof (merge_writes Demo.View Demo.Edit Demo.replace
                Demo.merged_right Demo.old_view tt "right"
                (or_introl eq_refl)) as (_ & U & _).
  split; [exact (U eq_refl) |].
  exact (proj1 (proj2 (proj2
           (merge_writes Demo.View Demo.Edit Demo.replace
              Demo.hunk Demo.new_view tt "right" (or_introl eq_refl)))
           "right" Demo.old_view Demo.merged_right eq_refl "right")).
Defined.

(** ** Parsing more than once *)

Section ParsingAgain.

Import FileDiff.

Lemma build_hunks_acc (pieces : list string) :
  Spec.pieces_ok pieces ->
  forall acc,
    build_hunks acc (tl pieces)
    = option_map (app acc) (build_hunks [] (tl pieces)).
Proof.
  induction 1 as [piece | piece g1 g2 g3 g4 rest N1 N3 D1 D2 D3 D4 R IH];
    intros acc.
  - cbn. now rewrite app_nil_r.
  - cbn [tl].
    assert (X : exists body rest', rest = body :: rest').
    { destruct R; now eexists _, _. }
    destruct X as (body & rest' & ->). cbn [tl] in IH.
    cbn [build_hunks].
    destruct (HunkDiff.init [g1; g2; g3; g4; body]) as [h |];
      [| reflexivity].
    rewrite (IH (acc ++ [Hunk h])), (IH ([] ++ [Hunk h])).
    destruct (build_hunks [] rest') as [hs |]; [| reflexivity].
    cbn [option_map app]. now rewrite <- app_assoc.
Qed.

(** X19.  [parse_diff] adds to the list: the hunks of the text, which
    depend on the text alone, are put after the elements the list
    already holds, and the dummy hunk, when asked for, is put in front
    with the number of all of them.  So a second [parse_diff] on the same
    object (which [get_hunks] only does while the list is empty) would
    leave every hunk twice in the list. *)
Theorem parse_diff_appends (text : string) :
  exists hs,
    Forall Props.is_hunk hs
    /\ forall (fd : t) (include_headers : bool),
        diff_text fd = text ->
        parse_diff fd include_headers
        = Some (set_hunks fd
                  ((if include_headers
                    then [DummyHunk
                            (Z.of_nat (List.length (hunks fd ++ hs)))]
                    else [])
                   ++ hunks fd ++ hs)
                  (S (parses fd))).
Proof.
  pose proof (split_from_ok text O EmptyString) as K.
  destruct (build_hunks_shape _ K []) as (hs & B & F & _).
  cbn [app] in B.
  exists hs. split; [exact F |].
  intros fd ih E. unfold parse_diff, hunk_split. rewrite E.
  pose proof (build_hunks_acc _ K (hunks fd)) as A. rewrite B in A.
  cbn [option_map] in A.
  destruct K as [piece | piece g1 g2 g3 g4 rest];
    cbn [tl] in A; rewrite A; now destruct ih.
Qed.

End ParsingAgain.

Example parse_diff_twice_demo :
  exists fd1 fd2 h,
    FileDiff.parse_diff (FileDiff.init "f" "/f" Demo.short_text) false
    = Some fd1
    /\ FileDiff.hunks fd1 = [FileDiff.Hunk h]
    /\ FileDiff.parse_diff fd1 true = Some fd2
    /\ FileDiff.hunks fd2
       = [FileDiff.DummyHunk 2; FileDiff.Hunk h; FileDiff.Hunk h].
Proof. eexists _, _, _. repeat split. Qed.
